(** * ClimateScope: the data pipeline of [app.py]

    A shallow embedding of the cleaning, feature-engineering,
    extreme-event and query/aggregation code of the dashboard, with the
    properties its specification states about them.

    Modelling conventions.
    - A pandas frame is a list of rows plus the list of its numeric column
      names.  A row carries its [country], its [last_updated] cell
      (a timestamp, or [None] for pandas' [NaT]) and a finite map from
      numeric column names to cells.
    - A numeric cell is either [NaN] (pandas' marker for a missing value)
      or a rational number: float64 arithmetic is idealised as exact
      arithmetic, results being kept in lowest terms.  Infinite readings
      are outside this model.  The bit-level statements (the value of the
      heat index at 30 and 50, the wind chill of a negative wind speed)
      are made over binary64 in [Binary64].
    - A timestamp is its calendar fields; chronological order is the
      lexicographic order of the fields.
    - The [country] column is assumed to hold text in every row.
    - [execute] gives the frame of a request as a function of the dataset,
      for a metric that is a numeric column other than [month] or that
      names no column.  [answer] runs the same lines over a heap of frame
      objects, and tells the text columns and the callback's own columns
      [country], [last_updated] and [month] apart. *)

From Stdlib Require Import QArith Qround Floats Lqa.
From stdpp Require Import base list sorting strings gmap.

Local Open Scope Z_scope.
Set Warnings "-inexact-float".

(** ** Numeric cells *)

Inductive cell : Type :=
  | NaN
  | Val (q : Q).

Definition isna (c : cell) : bool :=
  match c with NaN => true | Val _ => false end.

(** Element-wise arithmetic: [NaN] is absorbing. *)
Definition lift2 (f : Q → Q → Q) (a b : cell) : cell :=
  match a, b with
  | Val x, Val y => Val (Qred (f x y))
  | _, _ => NaN
  end.

Definition cadd : cell → cell → cell := lift2 Qplus.
Definition csub : cell → cell → cell := lift2 Qminus.
Definition cmul : cell → cell → cell := lift2 Qmult.

(** [a >= b] on cells: every comparison with [NaN] is [False]. *)
Definition cell_ge (a b : cell) : bool :=
  match a, b with
  | Val x, Val y => Qle_bool y x
  | _, _ => false
  end.

(** [c < 0] on a cell, [False] on [NaN]. *)
Definition negative (c : cell) : bool :=
  match c with
  | Val x => negb (Qle_bool 0 x)
  | NaN => false
  end.

(** The non-missing values of a column, in order. *)
Definition values (col : list cell) : list Q :=
  omap (λ c, match c with NaN => None | Val q => Some q end) col.

Definition Qsum (l : list Q) : Q := foldr Qplus 0%Q l.

(** The arithmetic mean of a non-empty list of numbers. *)
Definition arith_mean (l : list Q) : Q :=
  (Qsum l / inject_Z (Z.of_nat (length l)))%Q.

(** ** Timestamps *)

Record Timestamp : Type := mkTimestamp {
  year : Z;
  month : Z;
  day : Z;
  nanos : Z   (* nanoseconds since midnight *)
}.

Global Instance Timestamp_eq_dec : EqDecision Timestamp.
Proof. solve_decision. Defined.

(** [a <= b], chronologically. *)
Definition ts_le (a b : Timestamp) : Prop :=
  year a < year b ∨ year a = year b ∧
  (month a < month b ∨ month a = month b ∧
  (day a < day b ∨ day a = day b ∧ nanos a ≤ nanos b)).

Global Instance ts_le_dec : RelDecision ts_le.
Proof. intros a b. unfold ts_le. apply _. Defined.

Definition ts_lt (a b : Timestamp) : Prop := ts_le a b ∧ a ≠ b.

(** [dt.to_period('M').dt.to_timestamp()]: the first instant of the month. *)
Definition month_start (t : Timestamp) : Timestamp :=
  {| year := year t; month := month t; day := 1; nanos := 0 |}.

(** ** Rows and frames *)

Record Row : Type := mkRow {
  country : string;
  last_updated : option Timestamp;
  cells : gmap string cell
}.

Record DataFrame : Type := mkFrame {
  columns : list string;   (* the numeric columns *)
  rows : list Row
}.

(** [row[c]] for a numeric column of the frame: a blank cell reads [NaN]. *)
Definition cell_of (c : string) (r : Row) : cell :=
  default NaN (cells r !! c).

Definition column (c : string) (df : DataFrame) : list cell :=
  cell_of c <$> rows df.

(** The sort key of groupby and of the result view. *)
Definition Key : Type := string * Timestamp.

Definition key_le (k1 k2 : Key) : Prop :=
  (k1.1 ≠ k2.1 ∧ String.le k1.1 k2.1) ∨ (k1.1 = k2.1 ∧ ts_le k1.2 k2.2).

Global Instance key_le_dec : RelDecision key_le.
Proof. intros a b. unfold key_le. apply _. Defined.

Definition key_lt (k1 k2 : Key) : Prop := key_le k1 k2 ∧ k1 ≠ k2.

Definition row_key (r : Row) : option Key :=
  (λ t, (country r, t)) <$> last_updated r.

(** ** Errors *)

Inductive error : Type :=
  | KeyError (col : string).

Inductive result (A : Type) : Type :=
  | Ok (a : A)
  | Err (e : error).
Arguments Ok {A} a.
Arguments Err {A} e.

Definition bind {A B : Type} (m : result A) (k : A → result B) : result B :=
  match m with
  | Ok a => k a
  | Err e => Err e
  end.

Notation "m ;;; k" := (bind m (λ _, k))
  (at level 100, right associativity, only parsing).

(** [df[c]] on the right-hand side: the column must exist. *)
Definition require (c : string) (df : DataFrame) : result unit :=
  if decide (c ∈ columns df) then Ok () else Err (KeyError c).

(** [df[c] = ...]: overwrite or append the column, row by row. *)
Definition assign (c : string) (f : Row → cell) (df : DataFrame) : DataFrame :=
  {| columns := if decide (c ∈ columns df) then columns df else columns df ++ [c];
     rows := (λ r, mkRow (country r) (last_updated r) (<[c := f r]> (cells r)))
               <$> rows df |}.

(** ** 1. Load and clean (lines 16-20) *)

(** A row as read from the CSV file, column names already normalised; the
    timestamp is still text. *)
Record RawRow : Type := mkRawRow {
  raw_country : string;
  raw_last_updated : string;
  raw_cells : gmap string cell
}.

Record RawFrame : Type := mkRawFrame {
  raw_columns : list string;
  raw_rows : list RawRow
}.

Section Startup.

(** [pd.to_datetime(_, errors='coerce')]: what a cell of the given column
    parses to, [None] being [NaT].  The column is an argument because pandas
    may settle the date format on the column as a whole. *)
Variable to_datetime : list string → string → option Timestamp.

(** The real power [b ** y] for a base [b >= 0], as the float library
    approximates it. *)
Variable root : Q → Q → Q.

Definition coerce_row (col : list string) (rr : RawRow) : Row :=
  {| country := raw_country rr;
     last_updated := to_datetime col (raw_last_updated rr);
     cells := raw_cells rr |}.

Definition coerce (raw : RawFrame) : DataFrame :=
  let col := raw_last_updated <$> raw_rows raw in
  {| columns := raw_columns raw; rows := coerce_row col <$> raw_rows raw |}.

(** [df.dropna(subset=['last_updated'])] *)
Definition dropna (df : DataFrame) : DataFrame :=
  {| columns := columns df;
     rows := filter (λ r, is_Some (last_updated r)) (rows df) |}.

Definition clean (raw : RawFrame) : DataFrame := dropna (coerce raw).

(** ** 2. Feature engineering (lines 26-31) *)

(** [x ** y] for a non-integer exponent [y]: undefined, hence [NaN], on a
    negative base. *)
Definition power (x : cell) (y : Q) : cell :=
  match x with
  | NaN => NaN
  | Val b => if Qle_bool 0 b then Val (Qred (root b y)) else NaN
  end.

Definition heat_index (r : Row) : cell :=
  csub (cadd (cell_of "temperature_celsius" r)
             (cmul (Val 0.33) (cell_of "humidity" r)))
       (Val 0.7).

Definition wind_chill (r : Row) : cell :=
  csub (cadd (Val 13.12)
             (cmul (Val 0.6215) (cell_of "temperature_celsius" r)))
       (cmul (Val 11.37) (power (cell_of "wind_kph" r) 0.16)).

Definition engineer (df : DataFrame) : result DataFrame :=
  require "temperature_celsius" df ;;;
  require "humidity" df ;;;
  let df1 := assign "heat_index" heat_index df in
  require "temperature_celsius" df1 ;;;
  require "wind_kph" df1 ;;;
  Ok (assign "wind_chill" wind_chill df1).

End Startup.

(** The heat index on binary64 scalars, operation by operation as line 26
    evaluates it.  A decimal literal denotes the nearest binary64 number,
    as it does in Python. *)
Module Binary64.
Definition heat_index (temperature_celsius humidity : float) : float :=
  (temperature_celsius + 0.33 * humidity - 0.7)%float.

(** [x ** y] for a finite exponent [y] that is no whole number: the NaN of
    the invalid operation on a finite negative base, no exception; on the
    other bases what the library's [pow] gives. *)
Definition power (pow : float → float → float) (x y : float) : float :=
  if ((x <? 0) && negb (x =? neg_infinity))%float then nan else pow x y.

(** Line 27 on binary64 scalars. *)
Definition wind_chill (pow : float → float → float)
    (temperature_celsius wind_kph : float) : float :=
  (13.12 + 0.6215 * temperature_celsius - 11.37 * power pow wind_kph 0.16)%float.
End Binary64.

Definition METRICS : list (string * string) :=
  [ ("temperature_celsius", "Temperature (°C)");
    ("humidity", "Humidity (%)");
    ("precip_mm", "Precipitation (mm)");
    ("wind_kph", "Wind Speed (kph)");
    ("heat_index", "Heat Index");
    ("wind_chill", "Wind Chill") ].

(** ** 3. Extreme events (lines 46-52) *)

Global Instance Qle_dec : RelDecision Qle :=
  λ x y, decide (Qnum x * QDen y ≤ Qnum y * QDen x).

(** [Series.quantile(q)], linear interpolation between the closest ranks of
    the non-missing values; [NaN] when there is none. *)
Definition quantile (col : list cell) (q : Q) : cell :=
  let xs := merge_sort Qle (values col) in
  match xs with
  | [] => NaN
  | _ :: _ =>
      let n := length xs in
      let pos := (q * inject_Z (Z.of_nat (pred n)))%Q in
      let i := Z.to_nat (Qfloor pos) in
      let j := Nat.min (S i) (pred n) in
      let g := (pos - inject_Z (Qfloor pos))%Q in
      let a := default 0%Q (xs !! i) in
      let b := default 0%Q (xs !! j) in
      Val (Qred (a + (b - a) * g))
  end.

Definition temp_thr (df : DataFrame) : cell :=
  quantile (column "temperature_celsius" df) 0.99.

Definition wind_thr (df : DataFrame) : cell :=
  quantile (column "wind_kph" df) 0.99.

Definition is_extreme (df : DataFrame) (r : Row) : bool :=
  cell_ge (cell_of "temperature_celsius" r) (temp_thr df)
  || cell_ge (cell_of "wind_kph" r) (wind_thr df).

Definition extreme_df (df : DataFrame) : DataFrame :=
  {| columns := columns df; rows := filter (λ r, is_extreme df r) (rows df) |}.

(** ** 7. The callback: filter and aggregate (lines 161-182) *)

Inductive Aggregation : Type :=
  | Daily
  | Monthly.

(** The inputs of [render_content] that reach the frame [dff].  The country
    dropdown yields [None] or a list; the date picker yields two dates,
    taken here already parsed. *)
Record QuerySpec : Type := mkQuery {
  countries : option (list string);
  metric : string;
  start_date : Timestamp;
  end_date : Timestamp;
  time_agg : Aggregation
}.

(** The same query with another country selection. *)
Definition set_countries (cs : option (list string)) (q : QuerySpec) : QuerySpec :=
  {| countries := cs; metric := metric q; start_date := start_date q;
     end_date := end_date q; time_agg := time_agg q |}.

(** [Series.unique()]: the distinct values in order of first appearance. *)
Fixpoint unique (l : list string) : list string :=
  match l with
  | [] => []
  | x :: l' => x :: filter (λ y, y ≠ x) (unique l')
  end.

(** [if not countries: countries = df['country'].unique()] *)
Definition selected (df : DataFrame) (q : QuerySpec) : list string :=
  match countries q with
  | None | Some [] => unique (country <$> rows df)
  | Some cs => cs
  end.

(** [(last_updated >= start_date) & (last_updated <= end_date)];
    a comparison with [NaT] is [False]. *)
Definition in_range (q : QuerySpec) (r : Row) : bool :=
  match last_updated r with
  | None => false
  | Some t => bool_decide (ts_le (start_date q) t)
              && bool_decide (ts_le t (end_date q))
  end.

Definition keep (df : DataFrame) (q : QuerySpec) (r : Row) : bool :=
  bool_decide (country r ∈ selected df q) && in_range q r.

Definition filter_rows (df : DataFrame) (q : QuerySpec) : list Row :=
  filter (λ r, keep df q r) (rows df).

(** The group key [(country, month)] of a row, [month] being the column
    added on line 175. *)
Definition month_key (r : Row) : option Key :=
  (λ t, (country r, month_start t)) <$> last_updated r.

(** The groups of [groupby(['country', 'month'])]: the distinct keys,
    sorted. *)
Definition group_keys (sel : list Row) : list Key :=
  merge_sort key_le (remove_dups (omap month_key sel)).

Definition group (k : Key) (sel : list Row) : list Row :=
  filter (λ r, month_key r = Some k) sel.

(** The ['mean'] reducer: one pass that accumulates the sum and the count
    of the cells that are not [NaN]. *)
Definition mean_step (acc : Q * nat) (c : cell) : Q * nat :=
  match c with
  | NaN => acc
  | Val v => ((acc.1 + v)%Q, S acc.2)
  end.

Definition group_mean (col : list cell) : cell :=
  let acc := foldl mean_step (0%Q, 0%nat) col in
  match acc.2 with
  | O => NaN
  | S _ => Val (Qred (acc.1 / inject_Z (Z.of_nat acc.2)))
  end.

(** One output row of the aggregation; [month] is renamed [last_updated]. *)
Definition agg_row (metric : string) (sel : list Row) (k : Key) : Row :=
  {| country := k.1;
     last_updated := Some k.2;
     cells := {[ metric := group_mean (cell_of metric <$> group k sel) ]} |}.

(** Lines 175-182 on a frame of numeric columns: the metric is one of them
    (and not [month], which line 175 overwrites) or names no column.  The
    other keys are told apart in [agg_mean]. *)
Definition groupby_mean (metric : string) (dff : DataFrame) : result DataFrame :=
  require metric dff ;;;
  Ok {| columns := [metric];
        rows := agg_row metric (rows dff) <$> group_keys (rows dff) |}.

(** The frame [dff] that [render_content] hands to the charts. *)
Definition execute (df : DataFrame) (q : QuerySpec) : result DataFrame :=
  let dff := {| columns := columns df; rows := filter_rows df q |} in
  match time_agg q with
  | Monthly => groupby_mean (metric q) dff
  | Daily => Ok dff
  end.

(** The (country, timestamp) keys of a frame's rows, in row order. *)
Definition keys (df : DataFrame) : list Key := omap row_key (rows df).

(** ** The callback as Python runs it (lines 161-182) *)

(** A frame as pandas holds it while the callback runs: the numeric frame
    of the model above, the names of the text columns it carries besides
    [country] and [last_updated], and the datetime column [month] once line
    175 has written it, one cell per row. *)
Record Table : Type := mkTable {
  frame : DataFrame;
  text_columns : list string;
  month_column : option (list (option Timestamp))
}.

(** Frames are objects.  A name holds a reference into the heap; indexing,
    copying, aggregating and renaming make a new object, and an assignment
    to a column changes the object the name refers to. *)
Definition Heap : Type := list Table.

Inductive failure : Type :=
  | Raised (e : error)          (* an exception of the frame model *)
  | NotNumeric (col : string)   (* the mean of a text column, refused *)
  | Unbound (ref : nat)         (* a name that refers to no object *)
  | Unmodelled (key : string).  (* a metric that names one of the
                                   callback's own columns *)

Inductive reply (A : Type) : Type :=
  | Returned (a : A)
  | Stopped (f : failure).
Arguments Returned {A} a.
Arguments Stopped {A} f.

(** A step of the callback: it reads and changes the heap, and an exception
    leaves the heap as it was when raised. *)
Definition Run (A : Type) : Type := Heap → reply A * Heap.

Global Instance run_ret : MRet Run := λ A a h, (Returned a, h).

Global Instance run_bind : MBind Run :=
  λ A B k m h,
    match m h with
    | (Returned a, h') => k a h'
    | (Stopped f, h') => (Stopped f, h')
    end.

Definition new (t : Table) : Run nat :=
  λ h, (Returned (length h), h ++ [t]).

Definition get (ref : nat) : Run Table :=
  λ h, match h !! ref with
       | Some t => (Returned t, h)
       | None => (Stopped (Unbound ref), h)
       end.

Definition update (ref : nat) (f : Table → Table) : Run unit :=
  λ h, (Returned (), alter f ref h).

Definition lift {A : Type} (x : reply A) : Run A := λ h, (x, h).

(** [t[mask]]: the rows the mask keeps, cell by cell in every column. *)
Definition select_rows (mask : Row → bool) (t : Table) : Table :=
  {| frame := {| columns := columns (frame t);
                 rows := filter (λ r, mask r) (rows (frame t)) |};
     text_columns := text_columns t;
     month_column :=
       (λ ms, snd <$> filter (λ p, mask p.1) (zip (rows (frame t)) ms))
         <$> month_column t |}.

(** [t['month'] = t['last_updated'].dt.to_period('M').dt.to_timestamp()]:
    the column [month] now holds these timestamps, whatever it held. *)
Definition set_month (t : Table) : Table :=
  {| frame := {| columns := filter (λ c, c ≠ "month") (columns (frame t));
                 rows := (λ r, mkRow (country r) (last_updated r)
                                 (delete "month" (cells r)))
                         <$> rows (frame t) |};
     text_columns := filter (λ c, c ≠ "month") (text_columns t);
     month_column :=
       Some ((λ r, month_start <$> last_updated r) <$> rows (frame t)) |}.

(** The rows of a table with their group key [(country, month)]. *)
Definition keyed_rows (t : Table) (ms : list (option Timestamp)) : list (option Key * Row) :=
  zip_with (λ r m, ((λ ts, (country r, ts)) <$> m, r)) (rows (frame t)) ms.

(** [t.groupby(['country', 'month'], as_index=False).agg({metric: 'mean'})]:
    a frame with the two key columns and the metric.  The metric must be a
    column, and a numeric one; what pandas does when it is one of the
    callback's own columns [country], [last_updated] and [month] is not
    modelled. *)
Definition agg_mean (metric : string) (t : Table) : reply Table :=
  match month_column t with
  | None => Stopped (Raised (KeyError "month"))
  | Some ms =>
      if decide (metric ∈ ["country"; "last_updated"; "month"])
      then Stopped (Unmodelled metric)
      else if decide (metric ∈ text_columns t)
      then Stopped (NotNumeric metric)
      else if decide (metric ∈ columns (frame t))
      then
        let keyed := keyed_rows t ms in
        let ks := merge_sort key_le (remove_dups (omap fst keyed)) in
        Returned
          {| frame :=
               {| columns := [metric];
                  rows :=
                    (λ k, mkRow k.1 None
                            {[ metric :=
                                 group_mean
                                   (cell_of metric
                                      <$> (snd <$> filter (λ p, p.1 = Some k) keyed)) ]})
                    <$> ks |};
             text_columns := [];
             month_column := Some ((λ k, Some k.2) <$> ks) |}
      else Stopped (Raised (KeyError metric))
  end.

(** [t.rename(columns={'month': 'last_updated'})] on a frame that has a
    column [month]. *)
Definition rename_month (t : Table) : Table :=
  match month_column t with
  | None => t
  | Some ms =>
      {| frame := {| columns := columns (frame t);
                     rows := zip_with (λ r m, mkRow (country r) m (cells r))
                               (rows (frame t)) ms |};
         text_columns := text_columns t;
         month_column := None |}
  end.

(** Lines 163-182: the frame [dff], built from the dataset the global name
    [df] refers to.  [countries] and [dff] are local names. *)
Definition build_frame (df : nat) (q : QuerySpec) : Run nat :=
  d ← get df;
  masked ← new (select_rows (keep (frame d) q) d);
  c ← get masked;
  dff ← new c;
  match time_agg q with
  | Daily => mret dff
  | Monthly =>
      update dff set_month;;
      t ← get dff;
      g ← lift (agg_mean (metric q) t);
      grouped ← new g;
      g' ← get grouped;
      new (rename_month g')
  end.

(** The frame a request ends with, read from the heap it leaves. *)
Definition answer (df : nat) (q : QuerySpec) (h : Heap) : reply Table :=
  match build_frame df q h with
  | (Returned ref, h') =>
      match h' !! ref with
      | Some t => Returned t
      | None => Stopped (Unbound ref)
      end
  | (Stopped f, _) => Stopped f
  end.

(** The requests of a session, served one after the other over one heap. *)
Fixpoint serve (df : nat) (qs : list QuerySpec) (h : Heap) : list (reply Table) * Heap :=
  match qs with
  | [] => ([], h)
  | q :: qs' =>
      let a := answer df q h in
      let h' := (build_frame df q h).2 in
      let rest := serve df qs' h' in
      (a :: rest.1, rest.2)
  end.

(** ** Column names (line 18) *)

(** [str.lower()] on one character of an ASCII name. *)
Definition lower_char (a : Ascii.ascii) : Ascii.ascii :=
  let n := Ascii.N_of_ascii a in
  if ((65 <=? n) && (n <=? 90))%N then Ascii.ascii_of_N (n + 32) else a.

(** [str.isspace()] on one ASCII character: tab to carriage return, the
    separators 28 to 31, and the space. *)
Definition is_space (a : Ascii.ascii) : bool :=
  let n := Ascii.N_of_ascii a in
  (((9 <=? n) && (n <=? 13)) || ((28 <=? n) && (n <=? 32)))%N.

Fixpoint lstrip (l : list Ascii.ascii) : list Ascii.ascii :=
  match l with
  | [] => []
  | a :: l' => if is_space a then lstrip l' else l
  end.

Fixpoint rstrip (l : list Ascii.ascii) : list Ascii.ascii :=
  match l with
  | [] => []
  | a :: l' =>
      match rstrip l' with
      | [] => if is_space a then [] else [a]
      | r => a :: r
      end
  end.

(** [name.lower().strip()] *)
Definition normalize_name (s : string) : string :=
  String.string_of_list_ascii
    (rstrip (lstrip (lower_char <$> String.list_ascii_of_string s))).

(** The names on which [lower_char] and [is_space] are Python's. *)
Definition is_ascii (s : string) : Prop :=
  Forall (λ a, (Ascii.N_of_ascii a < 128)%N) (String.list_ascii_of_string s).

(** ** 5. The filter bar (lines 65-106) *)

(** [sorted(df['country'].unique())], the options of the country dropdown. *)
Definition country_options (df : DataFrame) : list string :=
  merge_sort String.le (unique (country <$> rows df)).

Definition ts_min (a b : Timestamp) : Timestamp :=
  if decide (ts_le a b) then a else b.

Definition ts_max (a b : Timestamp) : Timestamp :=
  if decide (ts_le a b) then b else a.

(** A reduction of a datetime column that skips [NaT] and is [NaT] when the
    column holds no timestamp. *)
Definition reduce_ts (f : Timestamp → Timestamp → Timestamp)
    (col : list (option Timestamp)) : option Timestamp :=
  foldr (λ x acc,
           match x with
           | None => acc
           | Some t => Some (match acc with None => t | Some m => f t m end)
           end) None col.

(** [df['last_updated'].min()] and [.max()], the default date range. *)
Definition date_min (df : DataFrame) : option Timestamp :=
  reduce_ts ts_min (last_updated <$> rows df).

Definition date_max (df : DataFrame) : option Timestamp :=
  reduce_ts ts_max (last_updated <$> rows df).

(** ** 7. The callback: the tabs (lines 184-287) *)

Inductive Tab : Type :=
  | TabExec
  | TabStats
  | TabTrends
  | TabExtreme
  | TabHelp.

(** What can stop the callback: an error raised while [dff] is built, the
    [ValueError] of a chart asked for a column its frame does not have, and
    the [KeyError] of [dff[list]] with the names that are not columns. *)
Inductive render_error : Type :=
  | QueryError (e : error)
  | ValueError
  | NotInIndex (missing : list string).

Inductive outcome (A : Type) : Type :=
  | Done (a : A)
  | Failed (e : render_error).
Arguments Done {A} a.
Arguments Failed {A} e.

Global Instance outcome_bind : MBind outcome :=
  λ A B k m, match m with Done a => k a | Failed e => Failed e end.

(** A chart, as far as the data goes: its kind, the frame it draws and the
    columns it reads. *)
Record Figure : Type := mkFigure {
  chart : string;
  data : DataFrame;
  reads : list string
}.

(** Every frame has its two text columns besides the numeric ones; other
    text columns are not columns of this model. *)
Definition has_column (dff : DataFrame) (c : string) : Prop :=
  c ∈ "country" :: "last_updated" :: columns dff.

Global Instance has_column_dec (dff : DataFrame) (c : string) :
  Decision (has_column dff c).
Proof. unfold has_column. apply _. Defined.

(** A [px] chart over [dff]: every column named must be one of the frame. *)
Definition px (kind : string) (dff : DataFrame) (cols : list string) : outcome Figure :=
  if decide (Forall (has_column dff) cols)
  then Done (mkFigure kind dff cols)
  else Failed ValueError.

(** [dff[cols]], a list of numeric columns. *)
Definition select_columns (cols : list string) (dff : DataFrame) : outcome DataFrame :=
  match filter (λ c, c ∉ columns dff) cols with
  | [] => Done {| columns := cols;
                  rows := (λ r, mkRow (country r) (last_updated r)
                                  (filter (λ kv, kv.1 ∈ cols) (cells r)))
                          <$> rows dff |}
  | missing => Failed (NotInIndex missing)
  end.

Inductive Content : Type :=
  | Graphs (figs : list Figure)
  | ExtremeEvents (table : list Row) (histogram : Figure)
  | Help.

(** [render_content]: the frame [dff] is built first, whatever the tab; the
    charts of a tab are built in the order of the source.  The heatmap is
    recorded with the frame whose correlations it shows; the correlations
    themselves (line 222) are not computed. *)
Definition render_content (df : DataFrame) (tab : Tab) (q : QuerySpec) : outcome Content :=
  match execute df q with
  | Err e => Failed (QueryError e)
  | Ok dff =>
      match tab with
      | TabExec =>
          f1 ← px "line" dff ["last_updated"; metric q; "country"];
          f2 ← px "scatter_geo" dff ["country"; metric q; "country"];
          Done (Graphs [f1; f2])
      | TabStats =>
          f1 ← px "scatter" dff ["temperature_celsius"; "humidity"; "country"];
          sub ← select_columns (fst <$> METRICS) dff;
          Done (Graphs [f1; mkFigure "imshow" sub (fst <$> METRICS)])
      | TabTrends =>
          f1 ← px "area" dff ["last_updated"; metric q; "country"];
          f2 ← px "violin" dff [metric q];
          f3 ← px "box" dff [metric q; "country"];
          Done (Graphs [f1; f2; f3])
      | TabExtreme =>
          f ← px "histogram" (extreme_df df) ["country"];
          Done (ExtremeEvents (rows (extreme_df df)) f)
      | TabHelp => Done Help
      end
  end.

Definition is_done {A : Type} (o : outcome A) : Prop :=
  match o with Done _ => True | Failed _ => False end.

(** ** Sample data *)

Definition at_date (y m d : Z) : Timestamp :=
  {| year := y; month := m; day := d; nanos := 0 |}.

(** One observation: temperature, humidity, wind speed and pressure. *)
Definition observation (c : string) (t : Timestamp)
    (temp hum wind pressure : cell) : Row :=
  {| country := c;
     last_updated := Some t;
     cells := list_to_map [ ("temperature_celsius", temp); ("humidity", hum);
                            ("wind_kph", wind); ("pressure_mb", pressure) ] |}.

Definition sample_columns : list string :=
  [ "temperature_celsius"; "humidity"; "wind_kph"; "pressure_mb" ].

(** Three observations in file order: India twice in May 2024, Brazil once
    with a blank temperature. *)
Definition india_3_may : Row :=
  observation "India" (at_date 2024 5 3) (Val 10) (Val 50) (Val 12) (Val 1008).
Definition brazil_17_may : Row :=
  observation "Brazil" (at_date 2024 5 17) NaN (Val 70) (Val 8) (Val 1012).
Definition india_17_may : Row :=
  observation "India" (at_date 2024 5 17) (Val 20) (Val 40) (Val (-3)) (Val 1010).

Definition sample_df : DataFrame :=
  {| columns := sample_columns;
     rows := [india_3_may; brazil_17_may; india_17_may] |}.

(** The sample as the program holds it: it also carries the text column
    [condition_text], and no column [month]. *)
Definition sample_table : Table :=
  {| frame := sample_df;
     text_columns := ["condition_text"];
     month_column := None |}.

(** A one-row dataset whose temperature and wind cells are both blank. *)
Definition blank_df : DataFrame :=
  {| columns := sample_columns;
     rows := [observation "India" (at_date 2024 5 3) NaN (Val 50) NaN (Val 1008)] |}.

Definition year_2024 (m : string) (agg : Aggregation) : QuerySpec :=
  {| countries := None; metric := m;
     start_date := at_date 2024 1 1; end_date := at_date 2024 12 31;
     time_agg := agg |}.

(** The same with the two dates swapped. *)
Definition backwards (m : string) (agg : Aggregation) : QuerySpec :=
  {| countries := None; metric := m;
     start_date := at_date 2024 12 31; end_date := at_date 2024 1 1;
     time_agg := agg |}.

(** What the Monthly temperature query over [sample_df] returns. *)
Definition sample_monthly : DataFrame :=
  {| columns := ["temperature_celsius"];
     rows := [ {| country := "Brazil";
                  last_updated := Some (at_date 2024 5 1);
                  cells := {[ "temperature_celsius" := NaN ]} |};
               {| country := "India";
                  last_updated := Some (at_date 2024 5 1);
                  cells := {[ "temperature_celsius" := Val 15 ]} |} ] |}.

(** A raw table of two lines, the second with an unreadable timestamp, and
    a parser that knows one date, for running the cleaning step. *)
Definition raw_sample : RawFrame :=
  {| raw_columns := sample_columns;
     raw_rows := [ {| raw_country := "India";
                      raw_last_updated := "2024-05-03 00:00";
                      raw_cells := cells india_3_may |};
                   {| raw_country := "India";
                      raw_last_updated := "not a date";
                      raw_cells := cells india_17_may |} ] |}.

Definition parse_sample (col : list string) (s : string) : option Timestamp :=
  if decide (s = "2024-05-03 00:00") then Some (at_date 2024 5 3) else None.

(** The sample dataset with its rows in the opposite order. *)
Definition sample_df_reversed : DataFrame :=
  {| columns := sample_columns; rows := reverse (rows sample_df) |}.

(** The query for one instant, 17 May 2024 at midnight. *)
Definition on_17_may (m : string) (agg : Aggregation) : QuerySpec :=
  {| countries := None; metric := m;
     start_date := at_date 2024 5 17; end_date := at_date 2024 5 17;
     time_agg := agg |}.

(** A stand-in for the power on non-negative bases, for running the model. *)
Definition root_id (b y : Q) : Q := b.

(** * Properties *)

(** ** The order on timestamps and keys *)

(** Membership in a list that is written out. *)
Ltac in_list := simpl; first [ by left | right; in_list ].

Ltac ts_order :=
  unfold ts_le; repeat intros [? ? ? ?]; simpl; intros;
  try (f_equal; lia); lia.

Global Instance ts_le_refl : Reflexive ts_le.
Proof. ts_order. Qed.

Global Instance ts_le_trans : Transitive ts_le.
Proof. ts_order. Qed.

Global Instance ts_le_antisym : AntiSymm (=) ts_le.
Proof. ts_order. Qed.

Global Instance ts_le_total : Total ts_le.
Proof. ts_order. Qed.

Lemma ts_le_not_lt (a b : Timestamp) : ts_lt b a → ¬ ts_le a b.
Proof.
  intros [Hba Hne] Hab. apply Hne. by apply (anti_symm ts_le).
Qed.

Global Instance key_le_refl : Reflexive key_le.
Proof. intros [c t]. right. by split. Qed.

Global Instance key_le_trans : Transitive key_le.
Proof.
  intros [c1 t1] [c2 t2] [c3 t3]; unfold key_le; simpl.
  intros [[Hn1 H1]|[-> H1]] [[Hn2 H2]|[-> H2]]; auto.
  - left. split; [|by etrans].
    intros ->. apply Hn1. by apply (anti_symm String.le).
  - right. split; [done|by etrans].
Qed.

Global Instance key_le_antisym : AntiSymm (=) key_le.
Proof.
  intros [c1 t1] [c2 t2]; unfold key_le; simpl.
  intros [[Hn1 H1]|[-> H1]] [[Hn2 H2]|[E H2]]; try congruence.
  - exfalso. apply Hn1. by apply (anti_symm String.le).
  - f_equal. by apply (anti_symm ts_le).
Qed.

Global Instance key_le_total : Total key_le.
Proof.
  intros [c1 t1] [c2 t2]; unfold key_le; simpl.
  destruct (decide (c1 = c2)) as [->|Hne].
  - destruct (total ts_le t1 t2); auto.
  - destruct (total String.le c1 c2); [left|right]; left; split; auto.
Qed.

(** A list sorted by [<=] without duplicates is sorted by [<]. *)
Lemma StronglySorted_strict (l : list Key) :
  StronglySorted key_le l → NoDup l → StronglySorted key_lt l.
Proof.
  induction 1 as [|k l Hl IH Hk]; intros Hnd; [constructor|].
  apply NoDup_cons in Hnd as [Hnotin Hnd].
  constructor; [by apply IH|].
  apply Forall_forall. intros k' Hin. split.
  - by eapply Forall_forall in Hk.
  - intros ->. by apply Hnotin.
Qed.

(** ** The groups of the monthly aggregation *)

Lemma elem_of_group_keys (k : Key) (sel : list Row) :
  k ∈ group_keys sel ↔ ∃ r, r ∈ sel ∧ month_key r = Some k.
Proof.
  unfold group_keys. rewrite merge_sort_Permutation, elem_of_remove_dups.
  apply list_elem_of_omap.
Qed.

Lemma NoDup_group_keys (sel : list Row) : NoDup (group_keys sel).
Proof.
  unfold group_keys. rewrite merge_sort_Permutation. apply NoDup_remove_dups.
Qed.

Lemma group_keys_sorted (sel : list Row) :
  StronglySorted key_lt (group_keys sel).
Proof.
  apply StronglySorted_strict; [|apply NoDup_group_keys].
  apply StronglySorted_merge_sort; apply _.
Qed.

Lemma elem_of_group (k : Key) (sel : list Row) (r : Row) :
  r ∈ group k sel ↔ r ∈ sel ∧ month_key r = Some k.
Proof. unfold group. rewrite list_elem_of_filter. tauto. Qed.

Lemma row_key_agg_row (m : string) (sel : list Row) (k : Key) :
  row_key (agg_row m sel k) = Some k.
Proof. by destruct k. Qed.

Lemma keys_agg_rows (m : string) (sel : list Row) (ks : list Key) :
  omap row_key (agg_row m sel <$> ks) = ks.
Proof.
  induction ks as [|[c t] ks IH]; [done|].
  rewrite fmap_cons. cbn. f_equal. apply IH.
Qed.

(** ** The mean reducer *)

Lemma foldl_mean_step (col : list cell) (s : Q) (n : nat) :
  ((foldl mean_step (s, n) col).1 == s + Qsum (values col))%Q ∧
  (foldl mean_step (s, n) col).2 = (n + length (values col))%nat.
Proof.
  revert s n. induction col as [|[|v] col IH]; intros s n; simpl.
  - split; [ring | lia].
  - apply IH.
  - destruct (IH (s + v)%Q (S n)) as [Hs Hn]. split.
    + rewrite Hs. simpl. ring.
    + rewrite Hn. simpl. lia.
Qed.

(** A group with no number in it reduces to [NaN]. *)
Lemma group_mean_all_missing (col : list cell) :
  values col = [] → group_mean col = NaN.
Proof.
  intros Hv. unfold group_mean.
  destruct (foldl_mean_step col 0 0) as [_ Hn].
  rewrite Hv in Hn. simpl in Hn. by rewrite Hn.
Qed.

(** Otherwise it reduces to the arithmetic mean of its numbers. *)
Lemma group_mean_values (col : list cell) :
  values col ≠ [] → group_mean col = Val (Qred (arith_mean (values col))).
Proof.
  intros Hv. unfold group_mean, arith_mean.
  destruct (foldl_mean_step col 0 0) as [Hs Hn].
  destruct (foldl mean_step (0%Q, 0%nat) col) as [s n]; simpl in *.
  subst n. destruct (values col) as [|v vs] eqn:E; [done|]. simpl length.
  cbv match. f_equal. apply Qred_complete. rewrite Hs. simpl. field.
  intros H. inversion H.
Qed.

(** ** Monthly aggregation *)

Lemma execute_monthly (df : DataFrame) (q : QuerySpec) :
  time_agg q = Monthly → metric q ∈ columns df →
  execute df q =
    Ok {| columns := [metric q];
          rows := agg_row (metric q) (filter_rows df q)
                    <$> group_keys (filter_rows df q) |}.
Proof.
  intros Hm Hc. unfold execute, groupby_mean, require. rewrite Hm. simpl.
  by rewrite decide_True.
Qed.

Lemma month_key_Some (r : Row) (k : Key) :
  month_key r = Some k ↔
  ∃ t, last_updated r = Some t ∧ k = (country r, month_start t).
Proof.
  unfold month_key. destruct (last_updated r) as [t|]; simpl; split.
  - intros [= <-]. eauto.
  - by intros (t' & [= <-] & ->).
  - done.
  - by intros (? & ? & _).
Qed.


Lemma filter_fmap {A B : Type} (f : A → B) (P : B → Prop)
    `{∀ y, Decision (P y)} (l : list A) :
  filter P (f <$> l) = f <$> filter (λ x, P (f x)) l.
Proof.
  induction l as [|x l IH]; [done|].
  rewrite fmap_cons, !filter_cons, IH. by destruct (decide (P (f x))).
Qed.

(** The rows of a group, told by country, year and month. *)
Lemma group_members (c : string) (y m : Z) (sel : list Row) :
  group (c, {| year := y; month := m; day := 1; nanos := 0 |}) sel
  = filter (λ r, country r = c
                 ∧ (year <$> last_updated r) = Some y
                 ∧ (month <$> last_updated r) = Some m) sel.
Proof.
  unfold group. apply list_filter_iff. intros r. unfold month_key, month_start.
  destruct (last_updated r) as [t|]; simpl.
  - split.
    + intros [= <- <- <-]. done.
    + intros (-> & [= <-] & [= <-]). done.
  - split; [done|]. by intros (_ & ? & _).
Qed.



Lemma values_Val (vs : list Q) : values (Val <$> vs) = vs.
Proof.
  induction vs as [|v vs IH]; [done|].
  rewrite fmap_cons. unfold values in *. cbn [omap list_omap]. by rewrite IH.
Qed.

(** The reducer sees the numbers of a column only. *)
Lemma group_mean_of_values (col : list cell) :
  group_mean col = group_mean (Val <$> values col).
Proof.
  destruct (values col) as [|v vs] eqn:E.
  - by rewrite group_mean_all_missing.
  - rewrite (group_mean_values col) by (by rewrite E).
    rewrite (group_mean_values (Val <$> (v :: vs)))
      by (by rewrite values_Val).
    by rewrite values_Val, E.
Qed.




(** ** Percentile thresholds *)

Lemma elem_of_values (col : list cell) (v : Q) : v ∈ values col ↔ Val v ∈ col.
Proof.
  unfold values. rewrite list_elem_of_omap. split.
  - intros ([|w] & Hin & Hw); simplify_eq. done.
  - intros Hin. exists (Val v). done.
Qed.

(** An interpolated value lies between the two ranks it interpolates. *)
Lemma lerp_le_max (a b g : Q) :
  (0 <= g)%Q → (g <= 1)%Q →
  (a + (b - a) * g <= a)%Q ∨ (a + (b - a) * g <= b)%Q.
Proof.
  intros H0 H1. destruct (Qlt_le_dec b a) as [Hba|Hab].
  - left. assert (0 <= (a - b) * g)%Q by (apply Qmult_le_0_compat; lra). lra.
  - right.
    assert (0 <= (b - a) * (1 - g))%Q by (apply Qmult_le_0_compat; lra). lra.
Qed.

(** The quantile of a column that holds a number is a number, and some
    value of the column is at least as large. *)
Lemma quantile_le_some (col : list cell) (q : Q) :
  (0 <= q)%Q → (q <= 1)%Q → values col ≠ [] →
  ∃ t b, quantile col q = Val t ∧ b ∈ values col ∧ (t <= b)%Q.
Proof.
  intros Hq0 Hq1 Hne. unfold quantile.
  pose proof (merge_sort_Permutation Qle (values col)) as Hperm.
  set (xs := merge_sort Qle (values col)) in *.
  destruct xs as [|x xs'] eqn:Exs.
  { apply Permutation_nil_l in Hperm. by rewrite Hperm in Hne. }
  rewrite <- Exs in *. clear Exs x xs'.
  set (n := length xs).
  assert (Hn : (0 < n)%nat).
  { subst n. rewrite Hperm. destruct (values col); [done|simpl; lia]. }
  set (pos := (q * inject_Z (Z.of_nat (pred n)))%Q).
  assert (Hpos0 : (0 <= pos)%Q).
  { apply Qmult_le_0_compat; [done|].
    change 0%Q with (inject_Z 0). rewrite <- Zle_Qle. lia. }
  assert (Hpos1 : (pos <= inject_Z (Z.of_nat (pred n)))%Q).
  { unfold pos.
    assert (0 <= inject_Z (Z.of_nat (pred n)))%Q.
    { change 0%Q with (inject_Z 0). rewrite <- Zle_Qle. lia. }
    assert (0 <= (1 - q) * inject_Z (Z.of_nat (pred n)))%Q
      by (apply Qmult_le_0_compat; lra).
    lra. }
  assert (Hf0 : 0 ≤ Qfloor pos).
  { rewrite <- (Qfloor_Z 0). by apply Qfloor_resp_le. }
  assert (Hf1 : Qfloor pos ≤ Z.of_nat (pred n)).
  { rewrite <- (Qfloor_Z (Z.of_nat (pred n))). by apply Qfloor_resp_le. }
  set (i := Z.to_nat (Qfloor pos)).
  set (j := Nat.min (S i) (pred n)).
  destruct (lookup_lt_is_Some_2 xs i) as [a Ha]; [subst i n; lia|].
  destruct (lookup_lt_is_Some_2 xs j) as [b Hb]; [subst j i n; lia|].
  rewrite Ha, Hb. simpl.
  set (g := (pos - inject_Z (Qfloor pos))%Q).
  assert (Hg0 : (0 <= g)%Q) by (pose proof (Qfloor_le pos); unfold g; lra).
  assert (Hg1 : (g <= 1)%Q).
  { pose proof (Qlt_floor pos) as Hlt. rewrite inject_Z_plus in Hlt.
    unfold g. change (inject_Z 1) with 1%Q in Hlt. lra. }
  destruct (lerp_le_max a b g Hg0 Hg1) as [Hle|Hle].
  - exists (Qred (a + (b - a) * g)), a. split; [done|]. split.
    + rewrite <- Hperm. by eapply list_elem_of_lookup_2.
    + by rewrite Qred_correct.
  - exists (Qred (a + (b - a) * g)), b. split; [done|]. split.
    + rewrite <- Hperm. by eapply list_elem_of_lookup_2.
    + by rewrite Qred_correct.
Qed.

(** A column that holds a number has a row at or above its 99th
    percentile. *)
Lemma row_above_quantile (c : string) (df : DataFrame) (r : Row) :
  r ∈ rows df → isna (cell_of c r) = false →
  ∃ r', r' ∈ rows df ∧
        cell_ge (cell_of c r') (quantile (column c df) 0.99) = true.
Proof.
  intros Hr Hna.
  destruct (quantile_le_some (column c df) 0.99) as (t & b & -> & Hb & Hle).
  - done.
  - done.
  - destruct (cell_of c r) as [|v] eqn:E; [done|].
    assert (v ∈ values (column c df)) as Hin.
    { apply elem_of_values. unfold column. apply list_elem_of_fmap. eauto. }
    intros Hnil. rewrite Hnil in Hin. by apply elem_of_nil in Hin.
  - apply elem_of_values in Hb. unfold column in Hb.
    apply list_elem_of_fmap in Hb as (r' & Hc & Hr').
    exists r'. split; [done|]. rewrite <- Hc. simpl.
    by apply Qle_bool_iff.
Qed.

(** C5 (as amended): whenever some row of the dataset holds a temperature
    or a wind speed that is not missing, the extreme set is not empty. *)
Theorem extreme_nonempty (df : DataFrame) (r : Row) :
  r ∈ rows df →
  isna (cell_of "temperature_celsius" r) = false
  ∨ isna (cell_of "wind_kph" r) = false →
  rows (extreme_df df) ≠ [].
Proof.
  intros Hr Hna.
  assert (∃ r', r' ∈ rows df ∧ is_extreme df r' = true) as (r' & Hr' & Hex).
  { destruct Hna as [Hna|Hna].
    - destruct (row_above_quantile _ df r Hr Hna) as (r' & Hr' & Hge).
      exists r'. split; [done|]. unfold is_extreme, temp_thr. by rewrite Hge.
    - destruct (row_above_quantile _ df r Hr Hna) as (r' & Hr' & Hge).
      exists r'. split; [done|]. unfold is_extreme, wind_thr. rewrite Hge.
      apply orb_true_r. }
  intros Hnil.
  assert (r' ∈ rows (extreme_df df)) as Hin.
  { unfold extreme_df. cbn [rows]. apply list_elem_of_filter.
    split; [by rewrite Hex|done]. }
  rewrite Hnil in Hin. by apply elem_of_nil in Hin.
Qed.

(** ** Filtering *)

Lemma filter_bool_ext {A : Type} (f g : A → bool) (l : list A) :
  (∀ x, x ∈ l → f x = g x) → filter (λ x, f x) l = filter (λ x, g x) l.
Proof.
  induction l as [|x l IH]; intros Hfg; [done|].
  rewrite !filter_cons, (Hfg x), IH.
  - done.
  - intros y Hy. apply Hfg. by right.
  - by left.
Qed.

Lemma filter_bool_nil {A : Type} (f : A → bool) (l : list A) :
  (∀ x, x ∈ l → f x = false) → filter (λ x, f x) l = [].
Proof.
  induction l as [|x l IH]; intros Hf; [done|].
  rewrite filter_cons, (Hf x), IH.
  - done.
  - intros y Hy. apply Hf. by right.
  - by left.
Qed.

Lemma elem_of_unique (x : string) (l : list string) : x ∈ unique l ↔ x ∈ l.
Proof.
  induction l as [|y l IH]; simpl; [done|].
  rewrite !elem_of_cons, list_elem_of_filter, IH.
  destruct (decide (x = y)) as [->|Hne]; [tauto|]. tauto.
Qed.

Lemma filter_rows_ext (df : DataFrame) (q1 q2 : QuerySpec) :
  (∀ c, c ∈ country <$> rows df → c ∈ selected df q1 ↔ c ∈ selected df q2) →
  start_date q1 = start_date q2 → end_date q1 = end_date q2 →
  filter_rows df q1 = filter_rows df q2.
Proof.
  intros Hsel Hs He. unfold filter_rows. apply filter_bool_ext.
  intros r Hr. unfold keep, in_range. rewrite Hs, He. f_equal.
  assert (country r ∈ country <$> rows df) as Hc
    by (apply list_elem_of_fmap; eauto).
  apply bool_decide_ext. by apply Hsel.
Qed.

Lemma execute_ext (df : DataFrame) (q1 q2 : QuerySpec) :
  filter_rows df q1 = filter_rows df q2 →
  metric q1 = metric q2 → time_agg q1 = time_agg q2 →
  execute df q1 = execute df q2.
Proof. unfold execute. by intros -> -> ->. Qed.

(** C3: a query with no country selected (the dropdown's [None], or an
    empty list) returns the same frame as the same query with any list that
    holds exactly the countries present in the dataset. *)
Theorem empty_countries_is_all (df : DataFrame) (q : QuerySpec) (cs : list string) :
  (∀ c, c ∈ cs ↔ c ∈ country <$> rows df) →
  execute df (set_countries None q) = execute df (set_countries (Some cs) q)
  ∧ execute df (set_countries (Some []) q)
    = execute df (set_countries (Some cs) q).
Proof.
  intros Hcs.
  assert (∀ c, c ∈ country <$> rows df →
               c ∈ unique (country <$> rows df) ↔
               c ∈ selected df (set_countries (Some cs) q)) as Hsel.
  { intros c Hc. rewrite elem_of_unique. unfold selected. simpl.
    destruct cs as [|c' cs'] eqn:E.
    - by rewrite elem_of_unique.
    - symmetry. apply Hcs. }
  split; apply execute_ext; try done; by apply filter_rows_ext.
Qed.

Lemma filter_rows_start_after_end (df : DataFrame) (q : QuerySpec) :
  ts_lt (end_date q) (start_date q) → filter_rows df q = [].
Proof.
  intros Hlt. unfold filter_rows. apply filter_bool_nil.
  intros r _. unfold keep, in_range.
  destruct (last_updated r) as [t|]; [|apply andb_false_r].
  apply andb_false_iff. right. apply andb_false_iff.
  destruct (decide (ts_le (start_date q) t)) as [H1|H1];
    [|left; by apply bool_decide_eq_false].
  right. apply bool_decide_eq_false. intros H2.
  apply (ts_le_not_lt _ _ Hlt). by etrans.
Qed.

(** C4: a query whose start date is strictly after its end date returns an
    empty frame, and no error, whenever its metric is a column of the
    dataset (Daily mode does not even look at the metric). *)
Theorem start_after_end_empty (df : DataFrame) (q : QuerySpec) :
  ts_lt (end_date q) (start_date q) →
  (time_agg q = Monthly → metric q ∈ columns df) →
  ∃ out, execute df q = Ok out ∧ rows out = [].
Proof.
  intros Hlt Hm. destruct (time_agg q) eqn:Hagg.
  - eexists. unfold execute. rewrite Hagg. split; [done|].
    by apply filter_rows_start_after_end.
  - eexists. split; [by apply execute_monthly; auto|].
    cbn [rows]. by rewrite filter_rows_start_after_end.
Qed.

(** ** Row order *)

Lemma execute_daily (df : DataFrame) (q : QuerySpec) :
  time_agg q = Daily →
  execute df q = Ok {| columns := columns df; rows := filter_rows df q |}.
Proof. unfold execute. by intros ->. Qed.

(** C2 (as amended): the rows of a Monthly result are sorted by (country,
    timestamp), strictly; the rows of a Daily result are the filtered rows
    in the order of the dataset, which no step sorts. *)
Theorem result_order (df : DataFrame) (q : QuerySpec) (out : DataFrame) :
  execute df q = Ok out →
  match time_agg q with
  | Monthly => StronglySorted key_lt (keys out)
  | Daily => rows out = filter_rows df q ∧ rows out `sublist_of` rows df
  end.
Proof.
  intros Hex. destruct (time_agg q) eqn:Hagg.
  - rewrite execute_daily in Hex by done. injection Hex as <-.
    split; [done|]. apply sublist_filter.
  - unfold execute in Hex. rewrite Hagg in Hex. unfold groupby_mean in Hex.
    destruct (require _ _); [|done]. simpl in Hex. injection Hex as <-.
    unfold keys. cbn [rows]. rewrite keys_agg_rows. apply group_keys_sorted.
Qed.

(** ** Cleaning *)

(** C8: whatever the raw table and the timestamp parser, cleaning returns a
    frame (it has no error path) in which every row has a timestamp; its
    rows are the raw rows whose timestamp cell parsed, in order and with
    the parsed value, so the frame can only be shorter than the table. *)
Theorem clean_timestamps
    (to_datetime : list string → string → option Timestamp) (raw : RawFrame) :
  let col := raw_last_updated <$> raw_rows raw in
  Forall (λ r, is_Some (last_updated r)) (rows (clean to_datetime raw))
  ∧ rows (clean to_datetime raw)
    = coerce_row to_datetime col
        <$> filter (λ rr, is_Some (to_datetime col (raw_last_updated rr)))
                   (raw_rows raw)
  ∧ (length (rows (clean to_datetime raw)) ≤ length (raw_rows raw))%nat.
Proof.
  unfold clean, dropna, coerce. cbn [rows]. split; [|split].
  - apply Forall_forall. intros r Hr. by apply list_elem_of_filter in Hr as [? _].
  - by rewrite filter_fmap.
  - etrans; [apply length_filter|]. by rewrite length_fmap.
Qed.

(** The line with the unreadable timestamp is gone, the other is kept. *)
Example clean_sample :
  clean parse_sample raw_sample
  = {| columns := sample_columns; rows := [india_3_may] |}.
Proof. vm_compute. reflexivity. Qed.

(** ** Derived metrics *)

Lemma lift2_NaN_r (f : Q → Q → Q) (a : cell) : lift2 f a NaN = NaN.
Proof. by destruct a. Qed.

Lemma power_negative (root : Q → Q → Q) (w y : Q) :
  (w < 0)%Q → power root (Val w) y = NaN.
Proof.
  intros Hw. unfold power. destruct (Qle_bool 0 w) eqn:E; [|done].
  apply Qle_bool_iff in E. lra.
Qed.

Lemma wind_chill_negative (root : Q → Q → Q) (r : Row) (w : Q) :
  cell_of "wind_kph" r = Val w → (w < 0)%Q → wind_chill root r = NaN.
Proof.
  intros Hc Hw. unfold wind_chill. rewrite Hc, power_negative by done.
  unfold csub, cmul. by rewrite !lift2_NaN_r.
Qed.

Lemma cell_of_assign_eq (c : string) (v : cell) (r : Row) :
  cell_of c (mkRow (country r) (last_updated r) (<[c := v]> (cells r))) = v.
Proof. unfold cell_of. cbn [cells]. by rewrite lookup_insert_eq. Qed.

Lemma cell_of_assign_ne (c c' : string) (v : cell) (r : Row) :
  c ≠ c' →
  cell_of c' (mkRow (country r) (last_updated r) (<[c := v]> (cells r)))
  = cell_of c' r.
Proof. intros. unfold cell_of. cbn [cells]. by rewrite lookup_insert_ne. Qed.

Lemma engineer_ok (root : Q → Q → Q) (df : DataFrame) :
  "temperature_celsius" ∈ columns df → "humidity" ∈ columns df →
  "wind_kph" ∈ columns df →
  engineer root df
  = Ok (assign "wind_chill" (wind_chill root) (assign "heat_index" heat_index df)).
Proof.
  intros Ht Hh Hw. unfold engineer, require.
  rewrite !decide_True; try done; unfold assign; cbn [columns];
    case_decide; set_solver.
Qed.

Lemma elem_of_columns_assign (c : string) (f : Row → cell) (df : DataFrame) :
  c ∈ columns (assign c f df).
Proof.
  unfold assign. cbn [columns]. case_decide; [done|].
  apply elem_of_app. right. by left.
Qed.

(** Every row of a Monthly result is the row of a group that has a row. *)
Lemma agg_rows_inv (metric : string) (sel : list Row) (o : Row) :
  o ∈ agg_row metric sel <$> group_keys sel →
  ∃ c y m,
    o = agg_row metric sel (c, {| year := y; month := m; day := 1; nanos := 0 |})
    ∧ group (c, {| year := y; month := m; day := 1; nanos := 0 |}) sel ≠ [].
Proof.
  intros Ho. apply list_elem_of_fmap in Ho as (k & -> & Hk).
  apply elem_of_group_keys in Hk as (r & Hr & Hk).
  pose proof Hk as Hk'. apply month_key_Some in Hk' as (t & Ht & ->).
  exists (country r), (year t), (month t). split; [done|].
  intros Hnil.
  assert (r ∈ group (country r, month_start t) sel) as Hin
    by (by apply elem_of_group).
  unfold month_start in Hin. rewrite Hnil in Hin. by apply elem_of_nil in Hin.
Qed.

(** Rows whose cell is missing can be left out of a column: its numbers are
    the same. *)
Lemma values_filter_missing (f : Row → cell) (P : Row → Prop)
    `{∀ r, Decision (P r)} (l : list Row) :
  (∀ r, r ∈ l → ¬ P r → f r = NaN) →
  values (f <$> filter P l) = values (f <$> l).
Proof.
  induction l as [|r l IH]; intros Hl; [done|].
  rewrite filter_cons, fmap_cons.
  assert (values (f <$> filter P l) = values (f <$> l)) as IH'
    by (apply IH; intros r' Hr'; apply Hl; by right).
  destruct (decide (P r)) as [Hp|Hp].
  - rewrite fmap_cons. unfold values in *. cbn [omap list_omap].
    by rewrite IH'.
  - rewrite IH'. unfold values. cbn [omap list_omap].
    by rewrite (Hl r) by (done || by left).
Qed.

Lemma negative_spec (c : cell) :
  negative c = true ↔ ∃ w, c = Val w ∧ (w < 0)%Q.
Proof.
  destruct c as [|x]; simpl.
  - split; [done|]. by intros (? & ? & _).
  - rewrite negb_true_iff. split.
    + intros E. exists x. split; [done|].
      apply Qnot_le_lt. intros Hle. apply Qle_bool_iff in Hle. congruence.
    + intros (w & [= <-] & Hw). apply not_true_is_false.
      intros Hle%Qle_bool_iff. lra.
Qed.

(** C6 (as amended): feature engineering raises no error on a negative wind
    speed: on every frame that has the three source columns it succeeds and
    keeps every row, and the wind chill of each row whose wind speed is
    negative is [NaN], the floating-point NaN that is the missing value of
    pandas; there is no marker of another kind.  A Daily query on
    [wind_chill] returns such a row with its [NaN].  The Monthly mean passes
    over it: the value of a group is the mean of the wind chills of its
    rows whose wind speed is not negative, and it is a number whenever some
    row of the group has a wind chill that is one. *)
Theorem negative_wind_is_missing (root : Q → Q → Q) (df : DataFrame) :
  "temperature_celsius" ∈ columns df → "humidity" ∈ columns df →
  "wind_kph" ∈ columns df →
  ∃ df', engineer root df = Ok df'
    ∧ length (rows df') = length (rows df)
    ∧ (∀ r w, r ∈ rows df' → cell_of "wind_kph" r = Val w → (w < 0)%Q →
              cell_of "wind_chill" r = NaN)
    ∧ (∀ q, metric q = "wind_chill" → time_agg q = Daily →
         ∃ out, execute df' q = Ok out
           ∧ ∀ r w, r ∈ filter_rows df' q →
                    cell_of "wind_kph" r = Val w → (w < 0)%Q →
                    r ∈ rows out ∧ cell_of "wind_chill" r = NaN)
    ∧ (∀ q, metric q = "wind_chill" → time_agg q = Monthly →
         ∃ out, execute df' q = Ok out
           ∧ ∀ o, o ∈ rows out →
               ∃ c y m v,
                 country o = c
                 ∧ last_updated o
                   = Some {| year := y; month := m; day := 1; nanos := 0 |}
                 ∧ cells o = {[ "wind_chill" := v ]}
                 ∧ let members :=
                     filter (λ r, country r = c
                                  ∧ (year <$> last_updated r) = Some y
                                  ∧ (month <$> last_updated r) = Some m)
                       (filter_rows df' q) in
                   let others :=
                     filter (λ r, negative (cell_of "wind_kph" r) = false)
                       members in
                   v = group_mean (cell_of "wind_chill" <$> others)
                   ∧ ((∃ r x, r ∈ members ∧ cell_of "wind_chill" r = Val x) →
                      ∃ x, v = Val x)).
Proof.
  intros Ht Hh Hw. eexists. split; [by apply engineer_ok|].
  set (df' := assign "wind_chill" (wind_chill root)
                (assign "heat_index" heat_index df)).
  assert (∀ r w, r ∈ rows df' → cell_of "wind_kph" r = Val w → (w < 0)%Q →
                 cell_of "wind_chill" r = NaN) as Hneg.
  { intros r w Hr Hc Hlt. unfold df', assign in Hr. cbn [rows] in Hr.
    apply list_elem_of_fmap in Hr as (r1 & -> & Hr1).
    rewrite cell_of_assign_eq. rewrite cell_of_assign_ne in Hc by done.
    by eapply wind_chill_negative. }
  split; [unfold df', assign; cbn [rows]; by rewrite !length_fmap|].
  split; [exact Hneg|]. split.
  - intros q Hq Hd. eexists. split; [by apply execute_daily|].
    cbn [rows]. intros r w Hr Hc Hlt. split; [done|].
    apply (Hneg r w); [|done..].
    unfold filter_rows in Hr. by apply list_elem_of_filter in Hr as [_ ?].
  - intros q Hq Hm.
    assert (metric q ∈ columns df') as Hcol
      by (rewrite Hq; apply elem_of_columns_assign).
    eexists. split; [by apply execute_monthly|]. cbn [rows]. rewrite Hq.
    intros o Ho. apply agg_rows_inv in Ho as (c & y & m & -> & Hne).
    exists c, y, m. eexists. unfold agg_row at 1 2 3.
    cbn [country last_updated cells fst snd].
    split; [done|]. split; [done|]. split; [reflexivity|].
    rewrite <- group_members.
    set (members := group (c, mkTimestamp y m 1 0) (filter_rows df' q)).
    cbv zeta.
    assert (∀ r, r ∈ members → r ∈ rows df') as Hsub.
    { intros r Hr. apply elem_of_group in Hr as [Hr _].
      unfold filter_rows in Hr. by apply list_elem_of_filter in Hr as [_ ?]. }
    split.
    + rewrite group_mean_of_values.
      rewrite (group_mean_of_values (cell_of "wind_chill" <$> filter _ members)).
      rewrite values_filter_missing; [done|].
      intros r Hr Hn. apply not_false_is_true in Hn.
      apply negative_spec in Hn as (w & Hc & Hlt).
      apply (Hneg r w); auto.
    + intros (r & x & Hr & Hx).
      rewrite group_mean_values; [by eexists|].
      intros Hnil.
      assert (x ∈ values (cell_of "wind_chill" <$> members)) as Hin.
      { apply elem_of_values. rewrite <- Hx.
        apply list_elem_of_fmap. by exists r. }
      rewrite Hnil in Hin. by apply elem_of_nil in Hin.
Qed.

(** C9: on binary64 numbers the heat index is [t + 0.33 * h - 0.7], each
    operation rounded as the hardware rounds it, and at temperature 30 and
    humidity 50 it is exactly the binary64 number written [45.8]; on the
    idealised cells of a row it is the exact value of the same formula. *)
Theorem heat_index_exact :
  Binary64.heat_index 30 50 = 45.8%float
  ∧ (∀ t h, Binary64.heat_index t h = (t + 0.33 * h - 0.7)%float)
  ∧ (∀ r t h, cell_of "temperature_celsius" r = Val t →
              cell_of "humidity" r = Val h →
              heat_index r = Val (Qred (t + 0.33 * h - 0.7)))
  ∧ (∀ r, cell_of "temperature_celsius" r = Val 30 →
          cell_of "humidity" r = Val 50 →
          heat_index r = Val (Qred 45.8)).
Proof.
  split; [reflexivity|]. split; [reflexivity|].
  assert (∀ r t h, cell_of "temperature_celsius" r = Val t →
              cell_of "humidity" r = Val h →
              heat_index r = Val (Qred (t + 0.33 * h - 0.7))) as Hgen.
  { intros r t h Ht Hh. unfold heat_index. rewrite Ht, Hh. simpl. f_equal.
    apply Qred_complete. by rewrite !Qred_correct. }
  split; [done|]. intros r Ht Hh. by rewrite (Hgen r 30 50)%Q.
Qed.

(** ** Missing groups and unknown metrics *)


Lemma execute_monthly_KeyError (df : DataFrame) (q : QuerySpec) :
  time_agg q = Monthly → metric q ∉ columns df →
  execute df q = Err (KeyError (metric q)).
Proof.
  intros Hm Hc. unfold execute, groupby_mean, require. rewrite Hm. simpl.
  by rewrite decide_False.
Qed.

Lemma lookup_snoc (h : Heap) (t : Table) : (h ++ [t]) !! length h = Some t.
Proof. by apply list_lookup_middle. Qed.

Lemma alter_snoc (f : Table → Table) (h : Heap) (t : Table) :
  alter f (length h) (h ++ [t]) = h ++ [f t].
Proof.
  rewrite <- (Nat.add_0_r (length h)) at 1. by rewrite alter_app_r.
Qed.

Lemma build_frame_daily (df : nat) (q : QuerySpec) (h : Heap) (d : Table) :
  h !! df = Some d → time_agg q = Daily →
  let dff := select_rows (keep (frame d) q) d in
  build_frame df q h = (Returned (S (length h)), h ++ [dff; dff]).
Proof.
  intros Hd Hq dff. unfold build_frame, mbind, run_bind, get, new, mret, run_ret.
  rewrite Hd, lookup_snoc, Hq, length_app, <- app_assoc. simpl.
  by rewrite Nat.add_1_r.
Qed.

Lemma build_frame_monthly (df : nat) (q : QuerySpec) (h : Heap) (d : Table) :
  h !! df = Some d → time_agg q = Monthly →
  let dff := select_rows (keep (frame d) q) d in
  build_frame df q h
  = match agg_mean (metric q) (set_month dff) with
    | Returned g =>
        (Returned (3 + length h)%nat,
         h ++ [dff; set_month dff; g; rename_month g])
    | Stopped f => (Stopped f, h ++ [dff; set_month dff])
    end.
Proof.
  intros Hd Hq dff.
  unfold build_frame, mbind, run_bind, get, new, update, lift, mret, run_ret.
  rewrite Hd, lookup_snoc, Hq, alter_snoc, lookup_snoc. fold dff.
  destruct (agg_mean (metric q) (set_month dff)) as [g|f].
  - rewrite lookup_snoc, !length_app, <- !app_assoc. simpl.
    do 2 f_equal. lia.
  - by rewrite <- app_assoc.
Qed.

(** The answer to a request is a function of the dataset and the request
    alone. *)
Lemma answer_closed (df : nat) (q : QuerySpec) (h : Heap) (d : Table) :
  h !! df = Some d →
  answer df q h
  = let dff := select_rows (keep (frame d) q) d in
    match time_agg q with
    | Daily => Returned dff
    | Monthly =>
        match agg_mean (metric q) (set_month dff) with
        | Returned g => Returned (rename_month g)
        | Stopped f => Stopped f
        end
    end.
Proof.
  intros Hd. unfold answer. destruct (time_agg q) eqn:Hq.
  - rewrite (build_frame_daily df q h d Hd Hq). cbv zeta.
    change (h ++ [?a; ?b]) with (h ++ [a] ++ [b]).
    rewrite app_assoc.
    replace (S (length h)) with (length (h ++ [select_rows (keep (frame d) q) d]))
      by (rewrite length_app; simpl; lia).
    by rewrite lookup_snoc.
  - rewrite (build_frame_monthly df q h d Hd Hq). cbv zeta.
    destruct (agg_mean _ _) as [g|f]; [|done].
    set (dff := select_rows (keep (frame d) q) d).
    change (h ++ [dff; set_month dff; g; rename_month g])
      with (h ++ [dff; set_month dff; g] ++ [rename_month g]).
    rewrite app_assoc.
    replace (3 + length h)%nat with (length (h ++ [dff; set_month dff; g]))
      by (rewrite length_app; simpl; lia).
    by rewrite lookup_snoc.
Qed.

(** A request creates objects and changes none that was there before. *)
Lemma build_frame_grows (df : nat) (q : QuerySpec) (h : Heap) :
  ∃ news, (build_frame df q h).2 = h ++ news.
Proof.
  destruct (h !! df) as [d|] eqn:Hd.
  - destruct (time_agg q) eqn:Hq.
    + rewrite (build_frame_daily df q h d Hd Hq). by eexists.
    + rewrite (build_frame_monthly df q h d Hd Hq).
      destruct (agg_mean _ _); by eexists.
  - exists []. unfold build_frame, mbind, run_bind, get.
    rewrite Hd. simpl. by rewrite app_nil_r.
Qed.

Lemma serve_alone (df : nat) (qs : list QuerySpec) (h : Heap) (d : Table) :
  h !! df = Some d →
  (serve df qs h).1 = (λ q, answer df q h) <$> qs
  ∧ ∃ news, (serve df qs h).2 = h ++ news.
Proof.
  revert h. induction qs as [|q qs IH]; intros h Hd.
  - split; [done|]. exists []. simpl. by rewrite app_nil_r.
  - simpl. destruct (build_frame_grows df q h) as [news Hnews].
    rewrite Hnews.
    assert ((h ++ news) !! df = Some d) as Hd'
      by (by apply lookup_app_l_Some).
    destruct (IH _ Hd') as [IH1 [news' IH2]].
    split.
    + rewrite IH1. f_equal. apply list_fmap_ext. intros _ q' _.
      by rewrite (answer_closed df q' _ d Hd'), (answer_closed df q' _ d Hd).
    + exists (news ++ news'). by rewrite IH2, app_assoc.
Qed.

Lemma keyed_rows_set_month (t : Table) :
  keyed_rows (set_month t)
    ((λ r, month_start <$> last_updated r) <$> rows (frame t))
  = (λ r, (month_key r,
           mkRow (country r) (last_updated r) (delete "month" (cells r))))
    <$> rows (frame t).
Proof.
  unfold keyed_rows, set_month. simpl.
  rewrite zip_with_fmap_l, zip_with_fmap_r, zip_with_diag.
  apply list_fmap_ext. intros _ r _. simpl. f_equal.
  unfold month_key. by destruct (last_updated r).
Qed.

Lemma omap_fst_fmap {A B C : Type} (f : A → option B) (g : A → C) (l : list A) :
  omap fst ((λ a, (f a, g a)) <$> l) = omap f l.
Proof.
  induction l as [|a l IH]; [done|]. csimpl.
  destruct (f a); csimpl; by rewrite IH.
Qed.

Lemma group_of_keyed (k : Key) (g : Row → Row) (l : list Row) :
  snd <$> filter (λ p : option Key * Row, p.1 = Some k)
            ((λ r, (month_key r, g r)) <$> l)
  = g <$> group k l.
Proof.
  unfold group. induction l as [|r l IH]; [done|].
  rewrite fmap_cons, !filter_cons. cbn [fst].
  destruct (decide (month_key r = Some k)); [rewrite !fmap_cons|];
    by rewrite IH.
Qed.

(** A numeric column outside the callback's own names is averaged: the
    frame line 182 leaves is the one [groupby_mean] computes. *)
Lemma agg_mean_numeric (metric : string) (t : Table) :
  metric ∉ ["country"; "last_updated"; "month"] →
  metric ∉ text_columns t →
  metric ∈ columns (frame t) →
  ∃ g, agg_mean metric (set_month t) = Returned g
       ∧ rename_month g
         = {| frame := {| columns := [metric];
                          rows := agg_row metric (rows (frame t))
                                    <$> group_keys (rows (frame t)) |};
              text_columns := [];
              month_column := None |}.
Proof.
  intros Hres Htext Hcol.
  assert (metric ≠ "month") as Hm by (intros ->; apply Hres; in_list).
  unfold agg_mean.
  change (month_column (set_month t))
    with (Some ((λ r, month_start <$> last_updated r) <$> rows (frame t))).
  cbv iota beta.
  rewrite (decide_False _ _ Hres).
  rewrite decide_False
    by (unfold set_month; simpl; rewrite list_elem_of_filter; tauto).
  rewrite decide_True
    by (unfold set_month; simpl; rewrite list_elem_of_filter; tauto).
  eexists. split; [reflexivity|].
  rewrite keyed_rows_set_month. unfold rename_month. simpl.
  rewrite zip_with_fmap_l, zip_with_fmap_r, zip_with_diag.
  rewrite omap_fst_fmap. f_equal. f_equal.
  apply list_fmap_ext. intros _ k _. unfold agg_row. simpl. f_equal.
  f_equal. f_equal.
  rewrite (group_of_keyed k
             (λ r, mkRow (country r) (last_updated r) (delete "month" (cells r)))).
  rewrite <- list_fmap_compose. apply list_fmap_ext. intros _ r _.
  unfold cell_of. simpl. by rewrite lookup_delete_ne.
Qed.

Lemma agg_mean_text (metric : string) (t : Table) :
  metric ∉ ["country"; "last_updated"; "month"] →
  metric ∈ text_columns t →
  agg_mean metric (set_month t) = Stopped (NotNumeric metric).
Proof.
  intros Hres Htext.
  assert (metric ≠ "month") as Hm by (intros ->; apply Hres; in_list).
  unfold agg_mean.
  change (month_column (set_month t))
    with (Some ((λ r, month_start <$> last_updated r) <$> rows (frame t))).
  cbv iota beta.
  rewrite (decide_False _ _ Hres).
  by rewrite decide_True
    by (unfold set_month; simpl; rewrite list_elem_of_filter; tauto).
Qed.

Lemma agg_mean_no_column (metric : string) (t : Table) :
  metric ∉ ["country"; "last_updated"; "month"] →
  metric ∉ text_columns t →
  metric ∉ columns (frame t) →
  agg_mean metric (set_month t) = Stopped (Raised (KeyError metric)).
Proof.
  intros Hres Htext Hcol.
  unfold agg_mean.
  change (month_column (set_month t))
    with (Some ((λ r, month_start <$> last_updated r) <$> rows (frame t))).
  cbv iota beta.
  rewrite (decide_False _ _ Hres).
  rewrite decide_False
    by (unfold set_month; simpl; rewrite list_elem_of_filter; tauto).
  by rewrite decide_False
    by (unfold set_month; simpl; rewrite list_elem_of_filter; tauto).
Qed.

(** C7 (as amended): the engine has no registry check and no
    [InvalidMetric].  A query whose metric key is outside the six registry
    keys is handled like any other.  In Daily mode it is answered with the
    filtered rows, the metric never being read.  In Monthly mode, the key
    being none of the callback's own columns [country], [last_updated] and
    [month]: a key that names another numeric column of the dataset is
    answered with the monthly means of that column; a key that names a text
    column is refused by the mean; a key that names no column raises
    [KeyError].  Whatever the outcome, it is that request's only: the
    request creates frames of its own and changes no object that existed
    before it, the dataset included, and in any sequence of requests served
    over the dataset each one gets the answer it gets when served alone. *)
Theorem unknown_metric (df : nat) (h : Heap) (d : Table) (q : QuerySpec) :
  h !! df = Some d →
  metric q ∉ fst <$> METRICS →
  let sel := filter_rows (frame d) q in
  (time_agg q = Daily →
     ∃ out, answer df q h = Returned out
            ∧ frame out = {| columns := columns (frame d); rows := sel |}
            ∧ text_columns out = text_columns d)
  ∧ (time_agg q = Monthly →
     metric q ∉ ["country"; "last_updated"; "month"] →
     (metric q ∈ columns (frame d) → metric q ∉ text_columns d →
        ∃ out, answer df q h = Returned out
               ∧ execute (frame d) q = Ok (frame out)
               ∧ rows (frame out) = agg_row (metric q) sel <$> group_keys sel
               ∧ text_columns out = [])
     ∧ (metric q ∈ text_columns d →
        answer df q h = Stopped (NotNumeric (metric q)))
     ∧ (metric q ∉ columns (frame d) → metric q ∉ text_columns d →
        answer df q h = Stopped (Raised (KeyError (metric q)))))
  ∧ (∃ news, (build_frame df q h).2 = h ++ news)
  ∧ (∀ qs1 qs2,
       (serve df (qs1 ++ q :: qs2) h).1
       = ((λ q', answer df q' h) <$> qs1)
         ++ answer df q h :: ((λ q', answer df q' h) <$> qs2)
       ∧ ∃ news, (serve df (qs1 ++ q :: qs2) h).2 = h ++ news).
Proof.
  intros Hd Hreg sel. split; [|split; [|split]].
  - intros Hq. rewrite (answer_closed df q h d Hd), Hq. by eexists.
  - intros Hq Hres. rewrite (answer_closed df q h d Hd), Hq. cbv zeta.
    set (dff := select_rows (keep (frame d) q) d).
    split; [|split].
    + intros Hcol Htext.
      destruct (agg_mean_numeric (metric q) dff Hres Htext Hcol)
        as (g & -> & ->).
      eexists. split; [reflexivity|]. cbn [frame text_columns rows].
      split; [|done].
      by rewrite (execute_monthly (frame d) q Hq Hcol).
    + intros Htext. by rewrite (agg_mean_text (metric q) dff Hres Htext).
    + intros Hcol Htext.
      by rewrite (agg_mean_no_column (metric q) dff Hres Htext Hcol).
  - apply build_frame_grows.
  - intros qs1 qs2.
    destruct (serve_alone df (qs1 ++ q :: qs2) h d Hd) as [-> Hheap].
    split; [|exact Hheap]. by rewrite fmap_app, fmap_cons.
Qed.

(** * The properties at the sample data *)

(** The two May rows of India average to 15; Brazil's group has no number. *)
Example monthly_sample :
  execute sample_df (year_2024 "temperature_celsius" Monthly)
  = Ok sample_monthly.
Proof. vm_compute. reflexivity. Qed.

Example daily_sample :
  execute sample_df (year_2024 "temperature_celsius" Daily) = Ok sample_df.
Proof. vm_compute. reflexivity. Qed.



(** C2 (as stated) fails: the Daily result over the sample dataset lists
    India before Brazil. *)
Lemma daily_not_sorted :
  ∃ out, execute sample_df (year_2024 "temperature_celsius" Daily) = Ok out
         ∧ keys out = [ ("India", at_date 2024 5 3);
                        ("Brazil", at_date 2024 5 17);
                        ("India", at_date 2024 5 17) ]
         ∧ ¬ Sorted key_le (keys out).
Proof.
  exists sample_df. split; [vm_compute; reflexivity|]. split; [reflexivity|].
  refine (proj1 (bool_decide_eq_false _) _). vm_compute. reflexivity.
Qed.

Lemma result_order_witness :
  execute sample_df (year_2024 "temperature_celsius" Monthly) = Ok sample_monthly
  ∧ StronglySorted key_lt (keys sample_monthly).
Proof.
  split; [vm_compute; reflexivity|].
  apply (result_order sample_df (year_2024 "temperature_celsius" Monthly)
           sample_monthly).
  vm_compute. reflexivity.
Defined.

Lemma sample_countries (c : string) :
  c ∈ ["India"; "Brazil"] ↔ c ∈ country <$> rows sample_df.
Proof. simpl. rewrite !elem_of_cons, !elem_of_nil. tauto. Qed.

Lemma empty_countries_is_all_witness :
  (∀ c, c ∈ ["India"; "Brazil"] ↔ c ∈ country <$> rows sample_df)
  ∧ execute sample_df (year_2024 "humidity" Monthly)
    = execute sample_df
        (set_countries (Some ["India"; "Brazil"]) (year_2024 "humidity" Monthly)).
Proof.
  split; [apply sample_countries|].
  apply (empty_countries_is_all sample_df (year_2024 "humidity" Monthly)
           ["India"; "Brazil"] sample_countries).
Defined.

Lemma start_after_end_empty_witness :
  ts_lt (at_date 2024 1 1) (at_date 2024 12 31)
  ∧ ∃ out, execute sample_df (backwards "wind_kph" Monthly) = Ok out
           ∧ rows out = [].
Proof.
  assert (ts_lt (at_date 2024 1 1) (at_date 2024 12 31)) as Hlt.
  { split; [unfold ts_le; simpl; lia|discriminate]. }
  split; [exact Hlt|].
  apply (start_after_end_empty sample_df (backwards "wind_kph" Monthly) Hlt).
  intros _. in_list.
Defined.

(** C5 (as stated) fails: a dataset of one row whose temperature and wind
    cells are blank has no extreme rows, before and after feature
    engineering. *)
Lemma extreme_empty_on_blank :
  rows blank_df ≠ []
  ∧ Forall (λ r, is_Some (last_updated r)) (rows blank_df)
  ∧ rows (extreme_df blank_df) = []
  ∧ ∀ root, ∃ df, engineer root blank_df = Ok df
                  ∧ rows df ≠ [] ∧ rows (extreme_df df) = [].
Proof.
  split; [done|]. split; [repeat constructor; by eexists|].
  split; [vm_compute; reflexivity|].
  intros root. eexists. split; [vm_compute; reflexivity|].
  split; [done|]. vm_compute. reflexivity.
Qed.

Lemma extreme_nonempty_witness :
  india_3_may ∈ rows sample_df
  ∧ isna (cell_of "temperature_celsius" india_3_may) = false
  ∧ rows (extreme_df sample_df) ≠ [].
Proof.
  assert (india_3_may ∈ rows sample_df) as Hin by left.
  split; [exact Hin|]. split; [reflexivity|].
  apply (extreme_nonempty sample_df india_3_may Hin). left. reflexivity.
Defined.

(** C6 (as stated) fails: the wind chill of India's 17 May observation,
    temperature 20 and wind speed -3, is the NaN of binary64 arithmetic
    itself, whatever the power function does on the other bases; the
    engineered row carries it, and it is a row of the Daily result like the
    others. *)
Lemma negative_wind_gives_nan :
  (∀ pow, PrimFloat.is_nan (Binary64.wind_chill pow 20 (-3)) = true)
  ∧ wind_chill root_id india_17_may = NaN
  ∧ ∃ df', engineer root_id sample_df = Ok df'
      ∧ (cell_of "wind_chill" <$> filter_rows df' (year_2024 "wind_chill" Daily))
        = [ Val (Qred (13.12 + 0.6215 * 10 - 11.37 * 12)); NaN; NaN ].
Proof.
  split; [intros pow; vm_compute; reflexivity|].
  split; [vm_compute; reflexivity|].
  eexists. split; [apply engineer_ok; in_list|]. vm_compute. reflexivity.
Qed.

Lemma negative_wind_is_missing_witness :
  "temperature_celsius" ∈ columns sample_df
  ∧ "humidity" ∈ columns sample_df
  ∧ "wind_kph" ∈ columns sample_df
  ∧ ∃ df, engineer root_id sample_df = Ok df
          ∧ length (rows df) = length (rows sample_df)
          ∧ ∀ r w, r ∈ rows df → cell_of "wind_kph" r = Val w → (w < 0)%Q →
                   cell_of "wind_chill" r = NaN.
Proof.
  assert ("temperature_celsius" ∈ columns sample_df) as Ht by in_list.
  assert ("humidity" ∈ columns sample_df) as Hh by in_list.
  assert ("wind_kph" ∈ columns sample_df) as Hw by in_list.
  split; [exact Ht|]. split; [exact Hh|]. split; [exact Hw|].
  destruct (negative_wind_is_missing root_id sample_df Ht Hh Hw)
    as (df & Hdf & Hlen & Hneg & _).
  exists df. auto.
Defined.

(** India's wind chill for May 2024 is that of its 3 May observation alone,
    the 17 May one having a negative wind speed; Brazil's only observation
    has no temperature, and its group no wind chill. *)
Example wind_chill_monthly_sample :
  ∃ df', engineer root_id sample_df = Ok df'
    ∧ execute df' (year_2024 "wind_chill" Monthly)
      = Ok {| columns := ["wind_chill"];
              rows := [ {| country := "Brazil";
                           last_updated := Some (at_date 2024 5 1);
                           cells := {[ "wind_chill" := NaN ]} |};
                        {| country := "India";
                           last_updated := Some (at_date 2024 5 1);
                           cells := {[ "wind_chill" :=
                                         Val (Qred (13.12 + 0.6215 * 10
                                                    - 11.37 * 12)) ]} |} ] |}.
Proof.
  eexists. split; [apply engineer_ok; in_list|]. vm_compute. reflexivity.
Qed.

(** The row engineered from India's 17 May observation, whose wind speed is
    -3, carries [NaN] as wind chill. *)
Example negative_wind_sample :
  (λ r, (cell_of "wind_kph" r, cell_of "wind_chill" r))
    <$> rows (assign "wind_chill" (wind_chill root_id) sample_df)
  = [ (Val 12, Val (Qred (13.12 + 0.6215 * 10 - 11.37 * 12)));
      (Val 8, NaN);
      (Val (-3), NaN) ].
Proof. vm_compute. reflexivity. Qed.

Lemma pressure_not_registered : "pressure_mb" ∉ fst <$> METRICS.
Proof. refine (proj1 (bool_decide_eq_false _) _). vm_compute. reflexivity. Qed.

(** C7 (as stated) fails: [pressure_mb] is no registry key, yet the Monthly
    query on it is answered, with the monthly means of that column. *)
Lemma pressure_is_served :
  ("pressure_mb" ∉ fst <$> METRICS)
  ∧ execute sample_df (year_2024 "pressure_mb" Monthly)
    = Ok {| columns := ["pressure_mb"];
            rows := [ {| country := "Brazil";
                         last_updated := Some (at_date 2024 5 1);
                         cells := {[ "pressure_mb" := Val 1012 ]} |};
                      {| country := "India";
                         last_updated := Some (at_date 2024 5 1);
                         cells := {[ "pressure_mb" := Val 1009 ]} |} ] |}.
Proof. split; [apply pressure_not_registered|]. vm_compute. reflexivity. Qed.

Lemma unknown_metric_witness :
  ([sample_table] !! 0%nat = Some sample_table)
  ∧ ("pressure_mb" ∉ fst <$> METRICS)
  ∧ (∃ news,
       (build_frame 0 (year_2024 "pressure_mb" Monthly) [sample_table]).2
       = [sample_table] ++ news)
  ∧ (∀ qs1 qs2,
       (serve 0 (qs1 ++ year_2024 "pressure_mb" Monthly :: qs2) [sample_table]).1
       = ((λ q', answer 0 q' [sample_table]) <$> qs1)
         ++ answer 0 (year_2024 "pressure_mb" Monthly) [sample_table]
         :: ((λ q', answer 0 q' [sample_table]) <$> qs2)
       ∧ ∃ news,
           (serve 0 (qs1 ++ year_2024 "pressure_mb" Monthly :: qs2)
              [sample_table]).2
           = [sample_table] ++ news).
Proof.
  split; [reflexivity|]. split; [apply pressure_not_registered|].
  apply (unknown_metric 0 [sample_table] sample_table
           (year_2024 "pressure_mb" Monthly) eq_refl pressure_not_registered).
Defined.

(** Three requests served over the sample dataset: a key that names a text
    column, a key that names no column and a registry key.  The first two
    fail, each in its own way; the third is answered as if it were alone,
    and the dataset is the first object of the heap as before. *)
Example session_sample :
  let session := serve 0 [ year_2024 "condition_text" Monthly;
                           year_2024 "dew_point" Monthly;
                           year_2024 "humidity" Monthly ] [sample_table] in
  session.1
  = [ Stopped (NotNumeric "condition_text");
      Stopped (Raised (KeyError "dew_point"));
      Returned
        {| frame :=
             {| columns := ["humidity"];
                rows := [ {| country := "Brazil";
                             last_updated := Some (at_date 2024 5 1);
                             cells := {[ "humidity" := Val 70 ]} |};
                          {| country := "India";
                             last_updated := Some (at_date 2024 5 1);
                             cells := {[ "humidity" := Val 45 ]} |} ] |};
           text_columns := [];
           month_column := None |} ]
  ∧ session.2 !! 0%nat = Some sample_table
  ∧ length session.2 = 9%nat.
Proof. vm_compute. repeat split; reflexivity. Qed.

(** A key that names no column makes the Monthly query fail, the Daily one
    not. *)
Example unknown_column_sample :
  execute sample_df (year_2024 "dew_point" Monthly) = Err (KeyError "dew_point")
  ∧ execute sample_df (year_2024 "dew_point" Daily) = Ok sample_df.
Proof. split; vm_compute; reflexivity. Qed.

Lemma sample_filter_rows (m : string) :
  filter_rows sample_df (year_2024 m Monthly) = rows sample_df.
Proof. vm_compute. reflexivity. Qed.


(** * Further properties of the code *)

(** ** Column names *)

Lemma lower_char_idem (a : Ascii.ascii) : lower_char (lower_char a) = lower_char a.
Proof. destruct a as [[] [] [] [] [] [] [] []]; reflexivity. Qed.

Lemma is_space_lower_char (a : Ascii.ascii) : is_space (lower_char a) = is_space a.
Proof. destruct a as [[] [] [] [] [] [] [] []]; reflexivity. Qed.

Lemma lstrip_lower (l : list Ascii.ascii) :
  lstrip (lower_char <$> l) = lower_char <$> lstrip l.
Proof.
  induction l as [|a l IH]; [done|].
  rewrite fmap_cons. cbn [lstrip]. rewrite is_space_lower_char.
  destruct (is_space a); [apply IH|done].
Qed.

Lemma rstrip_lower (l : list Ascii.ascii) :
  rstrip (lower_char <$> l) = lower_char <$> rstrip l.
Proof.
  induction l as [|a l IH]; [done|].
  rewrite fmap_cons. cbn [rstrip]. rewrite IH, is_space_lower_char.
  destruct (rstrip l); [by destruct (is_space a)|done].
Qed.

Lemma lstrip_idem (l : list Ascii.ascii) : lstrip (lstrip l) = lstrip l.
Proof.
  induction l as [|a l IH]; [done|]. cbn [lstrip].
  destruct (is_space a) eqn:E; [done|]. cbn [lstrip]. by rewrite E.
Qed.

Lemma rstrip_idem (l : list Ascii.ascii) : rstrip (rstrip l) = rstrip l.
Proof.
  induction l as [|a l IH]; [done|]. cbn [rstrip].
  destruct (rstrip l) as [|b r] eqn:E.
  - destruct (is_space a) eqn:Ea; [done|]. cbn. by rewrite Ea.
  - cbn [rstrip] in *. by rewrite IH.
Qed.

Lemma lstrip_rstrip (l : list Ascii.ascii) : lstrip (rstrip l) = rstrip (lstrip l).
Proof.
  induction l as [|a l IH]; [done|].
  cbn [lstrip]. destruct (is_space a) eqn:Ea.
  - rewrite <- IH. cbn [rstrip]. destruct (rstrip l) as [|b r].
    + by rewrite Ea.
    + cbn [lstrip]. by rewrite Ea.
  - cbn [rstrip]. destruct (rstrip l) as [|b r].
    + rewrite Ea. cbn. by rewrite Ea.
    + cbn [lstrip]. by rewrite Ea.
Qed.

Lemma strip_lower (l : list Ascii.ascii) :
  rstrip (lstrip (lower_char <$> l)) = lower_char <$> rstrip (lstrip l).
Proof. by rewrite lstrip_lower, rstrip_lower. Qed.

Lemma strip_idem (l : list Ascii.ascii) :
  rstrip (lstrip (rstrip (lstrip l))) = rstrip (lstrip l).
Proof. by rewrite lstrip_rstrip, lstrip_idem, rstrip_idem. Qed.

(** X1: on ASCII names the normalisation of line 18 is idempotent: a name
    already lowered and stripped is left as it is. *)
Theorem normalize_name_idempotent (s : string) :
  is_ascii s → normalize_name (normalize_name s) = normalize_name s.
Proof.
  intros _. unfold normalize_name. f_equal.
  rewrite String.list_ascii_of_string_of_list_ascii.
  set (l := String.list_ascii_of_string s).
  rewrite !strip_lower, strip_idem, <- !list_fmap_compose.
  apply list_fmap_ext. intros _ a _. simpl. by rewrite !lower_char_idem.
Qed.

Example normalize_name_sample :
  normalize_name "  Last_Updated " = "last_updated"
  ∧ normalize_name "Temperature_Celsius" = "temperature_celsius".
Proof. split; reflexivity. Qed.

Lemma normalize_name_idempotent_witness :
  is_ascii "  Last_Updated "
  ∧ normalize_name (normalize_name "  Last_Updated ")
    = normalize_name "  Last_Updated ".
Proof.
  assert (is_ascii "  Last_Updated ") as H.
  { unfold is_ascii. simpl. repeat constructor. }
  split; [exact H|]. exact (normalize_name_idempotent _ H).
Defined.

(** ** Feature engineering *)

Lemma columns_assign (c : string) (f : Row → cell) (df : DataFrame) (x : string) :
  x ∈ columns (assign c f df) ↔ x ∈ columns df ∨ x = c.
Proof.
  unfold assign. cbn [columns]. case_decide as Hc.
  - split; [by left|]. by intros [?| ->].
  - rewrite elem_of_app, elem_of_cons, elem_of_nil. tauto.
Qed.

Lemma engineer_cases (root : Q → Q → Q) (df : DataFrame) :
  ("temperature_celsius" ∉ columns df →
     engineer root df = Err (KeyError "temperature_celsius"))
  ∧ ("temperature_celsius" ∈ columns df → "humidity" ∉ columns df →
     engineer root df = Err (KeyError "humidity"))
  ∧ ("temperature_celsius" ∈ columns df → "humidity" ∈ columns df →
     "wind_kph" ∉ columns df →
     engineer root df = Err (KeyError "wind_kph"))
  ∧ ((∃ df', engineer root df = Ok df') ↔
     "temperature_celsius" ∈ columns df ∧ "humidity" ∈ columns df
     ∧ "wind_kph" ∈ columns df).
Proof.
  assert (∀ c, c ∈ columns df → c ∈ columns (assign "heat_index" heat_index df))
    as Hkeep by (intros c Hc; apply columns_assign; by left).
  assert ("wind_kph" ∉ columns df →
          "wind_kph" ∉ columns (assign "heat_index" heat_index df)) as Hwind.
  { intros Hw [Hin|Heq]%columns_assign; [done|discriminate]. }
  unfold engineer, require.
  split; [intros Ht; by rewrite decide_False|].
  split; [intros Ht Hh; by rewrite decide_True, decide_False|].
  split.
  { intros Ht Hh Hw.
    rewrite (decide_True _ _ Ht), (decide_True _ _ Hh). cbn [bind].
    rewrite (decide_True _ _ (Hkeep _ Ht)). cbn [bind].
    by rewrite (decide_False _ _ (Hwind Hw)). }
  split.
  - intros [df' Hok].
    destruct (decide ("temperature_celsius" ∈ columns df)) as [Ht|]; [|done].
    destruct (decide ("humidity" ∈ columns df)) as [Hh|]; [|done].
    cbn [bind] in Hok.
    destruct (decide ("temperature_celsius" ∈ _)); [|done]. cbn [bind] in Hok.
    destruct (decide ("wind_kph" ∈ columns (assign "heat_index" heat_index df)))
      as [Hw|]; [|done].
    apply columns_assign in Hw as [Hw|Hw]; [done|discriminate].
  - intros (Ht & Hh & Hw). eexists. by apply engineer_ok.
Qed.

(** X2: feature engineering needs the three source columns and reports the
    first one that is absent, in the order temperature, humidity, wind; it
    succeeds exactly when the three are there. *)
Theorem engineer_missing_column (root : Q → Q → Q) (df : DataFrame) :
  ("temperature_celsius" ∉ columns df →
     engineer root df = Err (KeyError "temperature_celsius"))
  ∧ ("temperature_celsius" ∈ columns df → "humidity" ∉ columns df →
     engineer root df = Err (KeyError "humidity"))
  ∧ ("temperature_celsius" ∈ columns df → "humidity" ∈ columns df →
     "wind_kph" ∉ columns df →
     engineer root df = Err (KeyError "wind_kph"))
  ∧ ((∃ df', engineer root df = Ok df') ↔
     "temperature_celsius" ∈ columns df ∧ "humidity" ∈ columns df
     ∧ "wind_kph" ∈ columns df).
Proof. apply engineer_cases. Qed.

Lemma rows_assign (c : string) (f : Row → cell) (df : DataFrame) :
  rows (assign c f df)
  = (λ r, mkRow (country r) (last_updated r) (<[c := f r]> (cells r)))
      <$> rows df.
Proof. reflexivity. Qed.

Lemma cell_of_assign (c c' : string) (f : Row → cell) (r : Row) :
  cell_of c' (mkRow (country r) (last_updated r) (<[c := f r]> (cells r)))
  = if decide (c = c') then f r else cell_of c' r.
Proof.
  case_decide as E; [subst; apply cell_of_assign_eq|by apply cell_of_assign_ne].
Qed.

Lemma engineer_inv (root : Q → Q → Q) (df df' : DataFrame) :
  engineer root df = Ok df' →
  df' = assign "wind_chill" (wind_chill root) (assign "heat_index" heat_index df).
Proof.
  intros Hok.
  destruct (engineer_cases root df) as (_ & _ & _ & [Hcols _]).
  destruct Hcols as (Ht & Hh & Hw); [by eexists|].
  rewrite engineer_ok in Hok by done. by injection Hok.
Qed.

(** X3: feature engineering changes nothing it was given: the rows keep
    their order, their country and their timestamp, every column other than
    the two derived ones keeps its cells, and the frame's columns are the
    old ones plus [heat_index] and [wind_chill]. *)
Theorem engineer_passthrough (root : Q → Q → Q) (df df' : DataFrame) :
  engineer root df = Ok df' →
  country <$> rows df' = country <$> rows df
  ∧ last_updated <$> rows df' = last_updated <$> rows df
  ∧ (∀ c, c ≠ "heat_index" → c ≠ "wind_chill" → column c df' = column c df)
  ∧ (∀ c, c ∈ columns df' ↔
          c ∈ columns df ∨ c = "heat_index" ∨ c = "wind_chill").
Proof.
  intros ->%engineer_inv. unfold column. rewrite !rows_assign.
  split; [|split; [|split]].
  - rewrite <- !list_fmap_compose. by apply list_fmap_ext.
  - rewrite <- !list_fmap_compose. by apply list_fmap_ext.
  - intros c Hh Hw.
    rewrite <- !list_fmap_compose. apply list_fmap_ext. intros _ r _.
    unfold cell_of, compose. cbn [cells].
    by rewrite !lookup_insert_ne.
  - intros c. rewrite !columns_assign. tauto.
Qed.

(** X4: the heat index of a row is missing exactly when its temperature or
    its humidity is; its wind chill is missing exactly when its temperature
    or its wind speed is missing or its wind speed is negative. *)
Theorem derived_missing (root : Q → Q → Q) (r : Row) :
  (isna (heat_index r) = true ↔
     isna (cell_of "temperature_celsius" r) = true
     ∨ isna (cell_of "humidity" r) = true)
  ∧ (isna (wind_chill root r) = true ↔
     isna (cell_of "temperature_celsius" r) = true
     ∨ isna (cell_of "wind_kph" r) = true
     ∨ ∃ w, cell_of "wind_kph" r = Val w ∧ (w < 0)%Q).
Proof.
  unfold heat_index, wind_chill, power. split.
  - destruct (cell_of "temperature_celsius" r), (cell_of "humidity" r);
      simpl; intuition discriminate.
  - destruct (cell_of "wind_kph" r) as [|w].
    { destruct (cell_of "temperature_celsius" r); simpl; intuition. }
    destruct (Qle_bool 0 w) eqn:E.
    + apply Qle_bool_iff in E.
      destruct (cell_of "temperature_celsius" r) as [|t]; simpl.
      { split; auto. }
      split; [discriminate|].
      intros [H|[H|(w' & Heq & Hw)]]; [discriminate..|].
      injection Heq as <-. lra.
    + assert (w < 0)%Q as Hw.
      { apply Qnot_le_lt. intros Hle. apply Qle_bool_iff in Hle. congruence. }
      destruct (cell_of "temperature_celsius" r) as [|t]; simpl.
      { split; auto. }
      split; [|done]. intros _. right. right. eauto.
Qed.

Lemma execute_ok (df : DataFrame) (q : QuerySpec) :
  metric q ∈ columns df → ∃ out, execute df q = Ok out.
Proof.
  intros Hm. destruct (time_agg q) eqn:E; eexists.
  - by apply execute_daily.
  - by apply execute_monthly.
Qed.

(** X5: after feature engineering every registry metric but [precip_mm] is
    a column, so every query on it is answered; [precip_mm] is answered
    when the source table has that column, and otherwise the dropdown
    still offers it and its Monthly query fails with [KeyError]. *)
Theorem registry_metrics_served (root : Q → Q → Q) (df df' : DataFrame) :
  engineer root df = Ok df' →
  (∀ q, metric q ∈ fst <$> METRICS →
        metric q ≠ "precip_mm" ∨ "precip_mm" ∈ columns df →
        ∃ out, execute df' q = Ok out)
  ∧ ("precip_mm" ∉ columns df →
     ∀ q, metric q = "precip_mm" → time_agg q = Monthly →
          execute df' q = Err (KeyError "precip_mm")).
Proof.
  intros Hok.
  destruct (engineer_cases root df) as (_ & _ & _ & [Hcols _]).
  destruct Hcols as (Ht & Hh & Hw); [by eexists|].
  apply engineer_inv in Hok as ->. split.
  - intros q Hq Hp. apply execute_ok. rewrite !columns_assign.
    simpl in Hq. rewrite !elem_of_cons, elem_of_nil in Hq.
    destruct Hq as [->|[->|[E|[->|[->|[->|[]]]]]]]; auto.
    rewrite E in *. destruct Hp; [done|auto].
  - intros Hp q Hq Hm. rewrite <- Hq. apply execute_monthly_KeyError; [done|].
    rewrite Hq, !columns_assign. intros [[?|?]|?]; [done|discriminate..].
Qed.

(** ** The filter bar *)

Lemma NoDup_unique (l : list string) : NoDup (unique l).
Proof.
  induction l as [|x l IH]; simpl; [constructor|].
  apply NoDup_cons. split.
  - intros [Hne _]%list_elem_of_filter. done.
  - by apply NoDup_filter.
Qed.

Lemma StronglySorted_NoDup_strict {A : Type} (R : relation A) (l : list A) :
  StronglySorted R l → NoDup l → StronglySorted (λ a b, R a b ∧ a ≠ b) l.
Proof.
  induction 1 as [|x l Hl IH Hx]; intros Hnd; [constructor|].
  apply NoDup_cons in Hnd as [Hnotin Hnd].
  constructor; [by apply IH|].
  apply Forall_forall. intros y Hy. split.
  - by eapply Forall_forall in Hx.
  - intros ->. by apply Hnotin.
Qed.

Lemma elem_of_country_options (df : DataFrame) (c : string) :
  c ∈ country_options df ↔ c ∈ country <$> rows df.
Proof.
  unfold country_options. by rewrite merge_sort_Permutation, elem_of_unique.
Qed.

(** X6: the options of the country dropdown are exactly the countries that
    occur in the dataset, each once, in strictly increasing order; choosing
    all of them gives the frame that choosing none gives. *)
Theorem country_options_sorted (df : DataFrame) :
  StronglySorted (λ a b, String.le a b ∧ a ≠ b) (country_options df)
  ∧ (∀ c, c ∈ country_options df ↔ c ∈ country <$> rows df)
  ∧ (∀ q, execute df (set_countries (Some (country_options df)) q)
          = execute df (set_countries None q)).
Proof.
  split; [|split].
  - apply StronglySorted_NoDup_strict.
    + apply StronglySorted_merge_sort; apply _.
    + unfold country_options. rewrite merge_sort_Permutation.
      apply NoDup_unique.
  - apply elem_of_country_options.
  - intros q. apply execute_ext; [|done..]. apply filter_rows_ext; [|done..].
    intros c Hc. unfold selected. simpl.
    destruct (country_options df) as [|c' cs] eqn:E; [done|].
    rewrite <- E, elem_of_country_options, elem_of_unique. done.
Qed.

Lemma filter_ext_in {A : Type} (P Q : A → Prop)
    `{∀ x, Decision (P x)} `{∀ x, Decision (Q x)} (l : list A) :
  (∀ x, x ∈ l → P x ↔ Q x) → filter P l = filter Q l.
Proof.
  induction l as [|x l IH]; intros HPQ; [done|].
  rewrite !filter_cons.
  assert (P x ↔ Q x) as Hx by (apply HPQ; left).
  rewrite IH by (intros y Hy; apply HPQ; by right).
  destruct (decide (P x)), (decide (Q x)); tauto.
Qed.

Lemma ts_min_le (a b : Timestamp) : ts_le (ts_min a b) a ∧ ts_le (ts_min a b) b.
Proof.
  unfold ts_min. case_decide as E; [by split|].
  split; [|done]. by destruct (total ts_le a b).
Qed.

Lemma ts_max_ge (a b : Timestamp) : ts_le a (ts_max a b) ∧ ts_le b (ts_max a b).
Proof.
  unfold ts_max. case_decide as E; [by split|].
  split; [done|]. by destruct (total ts_le a b).
Qed.

Lemma reduce_ts_min (col : list (option Timestamp)) (lo t : Timestamp) :
  reduce_ts ts_min col = Some lo → Some t ∈ col → ts_le lo t.
Proof.
  revert lo. induction col as [|[x|] col IH]; intros lo Hlo Hin.
  - by apply elem_of_nil in Hin.
  - simpl in Hlo. apply elem_of_cons in Hin.
    destruct (reduce_ts ts_min col) as [m|] eqn:Em.
    + injection Hlo as <-. destruct (ts_min_le x m) as [Hx Hm].
      destruct Hin as [[= ->]|Hin]; [done|]. etrans; [exact Hm|]. by apply IH.
    + injection Hlo as <-. destruct Hin as [[= ->]|Hin]; [done|].
      clear IH. exfalso. induction col as [|[y|] col IHc]; simpl in Em.
      * by apply elem_of_nil in Hin.
      * done.
      * apply elem_of_cons in Hin as [?|Hin]; [done|]. by apply IHc.
  - simpl in Hlo. apply elem_of_cons in Hin as [?|Hin]; [done|]. by apply IH.
Qed.

Lemma reduce_ts_max (col : list (option Timestamp)) (hi t : Timestamp) :
  reduce_ts ts_max col = Some hi → Some t ∈ col → ts_le t hi.
Proof.
  revert hi. induction col as [|[x|] col IH]; intros hi Hhi Hin.
  - by apply elem_of_nil in Hin.
  - simpl in Hhi. apply elem_of_cons in Hin.
    destruct (reduce_ts ts_max col) as [m|] eqn:Em.
    + injection Hhi as <-. destruct (ts_max_ge x m) as [Hx Hm].
      destruct Hin as [[= ->]|Hin]; [done|]. etrans; [|exact Hm]. by apply IH.
    + injection Hhi as <-. destruct Hin as [[= ->]|Hin]; [done|].
      clear IH. exfalso. induction col as [|[y|] col IHc]; simpl in Em.
      * by apply elem_of_nil in Hin.
      * done.
      * apply elem_of_cons in Hin as [?|Hin]; [done|]. by apply IHc.
  - simpl in Hhi. apply elem_of_cons in Hin as [?|Hin]; [done|]. by apply IH.
Qed.

(** X7: the default date range spans the dataset: every timestamp lies
    between [date_min] and [date_max], and the Daily query over that range
    with no country selected returns every row that has a timestamp, that
    is, the whole cleaned dataset. *)
Theorem full_range_returns_all (df : DataFrame) (lo hi : Timestamp) (m : string) :
  date_min df = Some lo → date_max df = Some hi →
  (∀ r t, r ∈ rows df → last_updated r = Some t → ts_le lo t ∧ ts_le t hi)
  ∧ execute df {| countries := None; metric := m; start_date := lo;
                  end_date := hi; time_agg := Daily |}
    = Ok (dropna df).
Proof.
  intros Hlo Hhi.
  assert (∀ r t, r ∈ rows df → last_updated r = Some t →
                 ts_le lo t ∧ ts_le t hi) as Hb.
  { intros r t Hr Ht.
    assert (Some t ∈ last_updated <$> rows df) as Hin
      by (apply list_elem_of_fmap; eauto).
    split; [by eapply reduce_ts_min|by eapply reduce_ts_max]. }
  split; [exact Hb|].
  rewrite execute_daily by done. unfold dropna, filter_rows. do 2 f_equal.
  apply filter_ext_in. intros r Hr. unfold keep, in_range, selected. simpl.
  rewrite andb_True, bool_decide_spec, elem_of_unique.
  destruct (last_updated r) as [t|] eqn:Et.
  - destruct (Hb r t Hr Et) as [H1 H2].
    rewrite !bool_decide_eq_true_2 by done. simpl.
    split; [by eexists|]. intros _. split; [|done].
    apply list_elem_of_fmap. eauto.
  - split; [by intros [_ []]|]. by intros [? ?].
Qed.

(** ** The filter of the callback *)

Lemma keep_spec (df : DataFrame) (q : QuerySpec) (r : Row) :
  r ∈ rows df →
  keep df q r ↔
    match countries q with
    | None | Some [] => True
    | Some cs => country r ∈ cs
    end
    ∧ ∃ t, last_updated r = Some t
           ∧ ts_le (start_date q) t ∧ ts_le t (end_date q).
Proof.
  intros Hr. unfold keep, in_range.
  rewrite andb_True, bool_decide_spec.
  assert (country r ∈ selected df q ↔
          match countries q with
          | None | Some [] => True
          | Some cs => country r ∈ cs
          end) as ->.
  { unfold selected.
    assert (country r ∈ unique (country <$> rows df)) as Hall
      by (apply elem_of_unique, list_elem_of_fmap; eauto).
    destruct (countries q) as [[|c cs]|]; tauto. }
  destruct (last_updated r) as [t|].
  - rewrite andb_True, !bool_decide_spec. split.
    + intros (Hc & H1 & H2). eauto.
    + intros (Hc & t' & [= <-] & H1 & H2). auto.
  - split; [by intros [_ []]|]. by intros (_ & t & ? & _).
Qed.

Lemma elem_of_filter_rows (df : DataFrame) (q : QuerySpec) (r : Row) :
  r ∈ filter_rows df q ↔ r ∈ rows df ∧ keep df q r.
Proof. unfold filter_rows. rewrite list_elem_of_filter. tauto. Qed.

(** X8: a Daily result holds exactly the rows of the dataset whose country
    is selected (any country when the selection is [None] or empty) and
    whose timestamp exists and lies in the closed interval from the start
    date to the end date; a row without timestamp is never returned. *)
Theorem daily_rows (df : DataFrame) (q : QuerySpec) (out : DataFrame) :
  execute df q = Ok out → time_agg q = Daily →
  ∀ r, r ∈ rows out ↔
       r ∈ rows df
       ∧ match countries q with
         | None | Some [] => True
         | Some cs => country r ∈ cs
         end
       ∧ ∃ t, last_updated r = Some t
              ∧ ts_le (start_date q) t ∧ ts_le t (end_date q).
Proof.
  intros Hex Hd r. rewrite execute_daily in Hex by done. injection Hex as <-.
  cbn [rows]. rewrite elem_of_filter_rows. split.
  - intros [Hr Hk]. split; [done|]. by apply (keep_spec df q r Hr).
  - intros [Hr Hk]. split; [done|]. by apply (keep_spec df q r Hr).
Qed.

(** X9: a query whose start and end are the same instant returns, in Daily
    mode, only rows stamped with exactly that instant: the two bounds are
    compared with the full timestamp, not with its date. *)
Theorem point_query (df : DataFrame) (q : QuerySpec) (out : DataFrame) :
  execute df q = Ok out → time_agg q = Daily → start_date q = end_date q →
  ∀ r, r ∈ rows out → last_updated r = Some (start_date q).
Proof.
  intros Hex Hd Heq r Hr. rewrite execute_daily in Hex by done.
  injection Hex as <-. cbn [rows] in Hr.
  apply elem_of_filter_rows in Hr as [Hr Hk].
  apply (keep_spec _ _ _ Hr) in Hk as (_ & t & -> & H1 & H2).
  f_equal. rewrite <- Heq in H2. by apply (anti_symm ts_le).
Qed.

Lemma sublist_filter_impl {A : Type} (P Q : A → Prop)
    `{∀ x, Decision (P x)} `{∀ x, Decision (Q x)} (l : list A) :
  (∀ x, x ∈ l → P x → Q x) → filter P l `sublist_of` filter Q l.
Proof.
  induction l as [|x l IH]; intros HPQ; [done|].
  rewrite !filter_cons.
  assert (filter P l `sublist_of` filter Q l) as Hl
    by (apply IH; intros y Hy; apply HPQ; by right).
  destruct (decide (P x)) as [HP|HP], (decide (Q x)) as [HQ|HQ].
  - by apply sublist_skip.
  - exfalso. apply HQ, HPQ; [left|done].
  - by apply sublist_cons.
  - done.
Qed.

(** X10: widening a query never loses rows.  With the same country
    selection, an earlier start and a later end keep every filtered row, in
    order; and with the same dates, a non-empty selection enlarged to a
    bigger list does too. *)
Theorem widening_keeps_rows (df : DataFrame) (q1 q2 : QuerySpec) :
  ts_le (start_date q2) (start_date q1) → ts_le (end_date q1) (end_date q2) →
  (countries q1 = countries q2
   ∨ ∃ c cs1 cs2, countries q1 = Some (c :: cs1) ∧ countries q2 = Some cs2
                  ∧ c :: cs1 ⊆ cs2) →
  filter_rows df q1 `sublist_of` filter_rows df q2.
Proof.
  intros Hs He Hc. unfold filter_rows. apply sublist_filter_impl.
  intros r Hr Hk. apply (keep_spec _ _ _ Hr) in Hk as (Hsel & t & Ht & H1 & H2).
  apply (keep_spec _ _ _ Hr). split.
  - destruct Hc as [<-|(c & cs1 & cs2 & E1 & E2 & Hsub)]; [done|].
    rewrite E1 in Hsel. rewrite E2.
    destruct cs2 as [|c2 cs2]; [done|]. by apply Hsub.
  - exists t. split; [done|]. split; by etrans.
Qed.

(** ** The shape of the Monthly frame *)

Lemma execute_monthly_inv (df : DataFrame) (q : QuerySpec) (out : DataFrame) :
  execute df q = Ok out → time_agg q = Monthly →
  metric q ∈ columns df
  ∧ out = {| columns := [metric q];
             rows := agg_row (metric q) (filter_rows df q)
                       <$> group_keys (filter_rows df q) |}.
Proof.
  intros Hex Hm. destruct (decide (metric q ∈ columns df)) as [Hc|Hc].
  - split; [done|]. rewrite execute_monthly in Hex by done. by injection Hex.
  - by rewrite execute_monthly_KeyError in Hex.
Qed.

Lemma length_remove_dups_le {A : Type} `{EqDecision A} (l : list A) :
  (length (remove_dups l) ≤ length l)%nat.
Proof.
  induction l as [|x l IH]; simpl; [done|].
  destruct (decide_rel _ _ _); simpl; [apply le_S, IH|apply le_n_S, IH].
Qed.

Lemma length_omap_le {A B : Type} (f : A → option B) (l : list A) :
  (length (omap f l) ≤ length l)%nat.
Proof.
  induction l as [|x l IH]; simpl; [done|].
  destruct (f x); simpl; [apply le_n_S, IH|apply le_S, IH].
Qed.

Lemma length_group_keys (sel : list Row) :
  (length (group_keys sel) ≤ length sel)%nat.
Proof.
  unfold group_keys. rewrite merge_sort_Permutation.
  etrans; [apply length_remove_dups_le|apply length_omap_le].
Qed.

Lemma filter_rows_month_key (df : DataFrame) (q : QuerySpec) (r : Row) :
  r ∈ filter_rows df q → is_Some (month_key r).
Proof.
  intros [Hr Hk]%elem_of_filter_rows.
  apply (keep_spec _ _ _ Hr) in Hk as (_ & t & Ht & _).
  unfold month_key. rewrite Ht. by eexists.
Qed.

(** X11: the frame of a Monthly query has one numeric column, the metric,
    and each of its rows carries that cell only, whatever other columns the
    dataset has; it has at most as many rows as the filter kept, and none
    exactly when the filter kept none. *)
Theorem monthly_shape (df : DataFrame) (q : QuerySpec) (out : DataFrame) :
  execute df q = Ok out → time_agg q = Monthly →
  columns out = [metric q]
  ∧ Forall (λ r, dom (cells r) = {[ metric q ]}) (rows out)
  ∧ (length (rows out) ≤ length (filter_rows df q))%nat
  ∧ (rows out = [] ↔ filter_rows df q = []).
Proof.
  intros Hex Hm. destruct (execute_monthly_inv df q out Hex Hm) as [Hc ->].
  cbn [columns rows]. split; [done|]. split; [|split].
  - apply Forall_forall. intros o (k & -> & _)%list_elem_of_fmap.
    unfold agg_row. cbn [cells]. apply dom_singleton_L.
  - rewrite length_fmap. apply length_group_keys.
  - split.
    + intros Hnil. destruct (filter_rows df q) as [|r sel] eqn:E; [done|].
      exfalso. destruct (filter_rows_month_key df q r) as [k Hk].
      { rewrite E. by left. }
      assert (k ∈ group_keys (r :: sel)) as Hin.
      { apply elem_of_group_keys. exists r. split; [by left|done]. }
      apply fmap_nil_inv in Hnil. rewrite Hnil in Hin.
      by apply elem_of_nil in Hin.
    + by intros ->.
Qed.

Lemma group_keys_ext (sel1 sel2 : list Row) :
  (∀ r, r ∈ sel1 ↔ r ∈ sel2) → group_keys sel1 = group_keys sel2.
Proof.
  intros Hsel. apply (Sorted_unique key_le).
  - apply Sorted_merge_sort; apply _.
  - apply Sorted_merge_sort; apply _.
  - apply NoDup_Permutation; [apply NoDup_group_keys..|].
    intros k. rewrite !elem_of_group_keys. by setoid_rewrite Hsel.
Qed.

Lemma elem_of_filter_rows_perm (df1 df2 : DataFrame) (q : QuerySpec) (r : Row) :
  rows df1 ≡ₚ rows df2 → r ∈ filter_rows df1 q → r ∈ filter_rows df2 q.
Proof.
  intros Hp [Hr Hk]%elem_of_filter_rows. apply elem_of_filter_rows.
  assert (r ∈ rows df2) as Hr2 by (by rewrite <- Hp).
  split; [done|]. apply (keep_spec _ _ _ Hr2). by apply (keep_spec _ _ _ Hr).
Qed.

(** X12: the groups of a Monthly result do not depend on the order of the
    rows in the dataset: two datasets with the same rows in different order
    give results with the same (country, month) keys in the same order, or
    fail alike. *)
Theorem monthly_keys_order_independent (df1 df2 : DataFrame) (q : QuerySpec) :
  rows df1 ≡ₚ rows df2 → columns df1 = columns df2 → time_agg q = Monthly →
  match execute df1 q, execute df2 q with
  | Ok o1, Ok o2 => columns o1 = columns o2 ∧ keys o1 = keys o2
  | Err e1, Err e2 => e1 = e2
  | _, _ => False
  end.
Proof.
  intros Hp Hc Hm. destruct (decide (metric q ∈ columns df1)) as [H1|H1].
  - rewrite !execute_monthly by (done || by rewrite <- Hc).
    split; [done|]. unfold keys. cbn [rows]. rewrite !keys_agg_rows.
    apply group_keys_ext. intros r.
    split; by apply elem_of_filter_rows_perm.
  - rewrite !execute_monthly_KeyError by (done || by rewrite <- Hc). done.
Qed.

(** X13: a (country, month) group with a single reading of the metric, the
    other cells of the group being missing, reports that reading. *)
Theorem single_reading_month (df : DataFrame) (q : QuerySpec)
    (r : Row) (t : Timestamp) (v : Q) :
  time_agg q = Monthly → metric q ∈ columns df →
  r ∈ filter_rows df q → last_updated r = Some t →
  values (cell_of (metric q)
            <$> group (country r, month_start t) (filter_rows df q)) = [v] →
  ∃ out, execute df q = Ok out
    ∧ {| country := country r;
         last_updated := Some (month_start t);
         cells := {[ metric q := Val (Qred v) ]} |} ∈ rows out.
Proof.
  intros Hm Hc Hr Ht Hv. eexists. split; [by apply execute_monthly|].
  cbn [rows]. apply list_elem_of_fmap.
  exists (country r, month_start t). split.
  - unfold agg_row. cbn [fst snd]. do 2 f_equal.
    rewrite group_mean_values by (by rewrite Hv). rewrite Hv. f_equal.
    apply Qred_complete. unfold arith_mean. simpl. field.
  - apply elem_of_group_keys. exists r. split; [done|].
    apply month_key_Some. eauto.
Qed.

(** ** The extreme set *)

Lemma quantile_le_cell (c : string) (df : DataFrame) (r : Row) (v : Q) :
  r ∈ rows df → cell_of c r = Val v →
  (∀ r' v', r' ∈ rows df → cell_of c r' = Val v' → (v' <= v)%Q) →
  cell_ge (cell_of c r) (quantile (column c df) 0.99) = true.
Proof.
  intros Hr Hv Hmax.
  destruct (quantile_le_some (column c df) 0.99) as (t & b & -> & Hb & Hle).
  - done.
  - done.
  - assert (v ∈ values (column c df)) as Hin.
    { apply elem_of_values. unfold column. apply list_elem_of_fmap. eauto. }
    intros Hnil. rewrite Hnil in Hin. by apply elem_of_nil in Hin.
  - apply elem_of_values in Hb. unfold column in Hb.
    apply list_elem_of_fmap in Hb as (r' & Hc & Hr').
    rewrite Hv. simpl. apply Qle_bool_iff.
    apply (Qle_trans _ b); [exact Hle|]. by eapply Hmax.
Qed.

(** X14: a row that holds the highest temperature of the dataset is in the
    extreme set, and so is a row that holds the highest wind speed. *)
Theorem hottest_row_extreme (df : DataFrame) (c : string) (r : Row) (v : Q) :
  c = "temperature_celsius" ∨ c = "wind_kph" →
  r ∈ rows df → cell_of c r = Val v →
  (∀ r' v', r' ∈ rows df → cell_of c r' = Val v' → (v' <= v)%Q) →
  r ∈ rows (extreme_df df).
Proof.
  intros Hc Hr Hv Hmax. unfold extreme_df. cbn [rows].
  apply list_elem_of_filter. split; [|done].
  pose proof (quantile_le_cell c df r v Hr Hv Hmax) as Hge.
  unfold is_extreme, temp_thr, wind_thr.
  destruct Hc as [-> | ->]; rewrite Hge; [done|].
  by rewrite orb_true_r.
Qed.

Lemma cell_ge_isna (a b : cell) : cell_ge a b = true → isna a = false.
Proof. by destruct a. Qed.

(** X15: the extreme set is a sub-sequence of the dataset, and a row whose
    temperature and wind speed are both missing is never in it. *)
Theorem extreme_rows (df : DataFrame) :
  rows (extreme_df df) `sublist_of` rows df
  ∧ ∀ r, r ∈ rows (extreme_df df) →
         isna (cell_of "temperature_celsius" r) = false
         ∨ isna (cell_of "wind_kph" r) = false.
Proof.
  unfold extreme_df. cbn [rows]. split; [apply sublist_filter|].
  intros r [Hex _]%list_elem_of_filter. unfold is_extreme in Hex.
  apply Is_true_true, orb_true_iff in Hex as [H|H];
    apply cell_ge_isna in H; auto.
Qed.

Global Instance Qle_trans_inst : Transitive Qle.
Proof. intros x y z. apply Qle_trans. Qed.

Global Instance Qle_total_inst : Total Qle.
Proof.
  intros x y. destruct (Qlt_le_dec x y) as [H|H]; [left|right]; [|done].
  by apply Qlt_le_weak.
Qed.

Lemma StronglySorted_lookup_le {A : Type} (R : relation A) `{!Reflexive R}
    (l : list A) (i j : nat) (a b : A) :
  StronglySorted R l → l !! i = Some a → l !! j = Some b → (i ≤ j)%nat → R a b.
Proof.
  intros Hs. revert i j. induction Hs as [|x l Hl IH Hx]; intros i j Ha Hb Hij.
  - done.
  - destruct i as [|i], j as [|j]; simpl in *.
    + by simplify_eq.
    + injection Ha as <-. eapply Forall_forall in Hx; [done|].
      by eapply list_elem_of_lookup_2.
    + lia.
    + eapply IH; [done..|lia].
Qed.

Lemma length_filter_take {A : Type} (P : A → Prop) `{∀ x, Decision (P x)}
    (l : list A) (n : nat) :
  (n ≤ length l)%nat → Forall P (take n l) → (n ≤ length (filter P l))%nat.
Proof.
  intros Hn Hall. rewrite <- (take_drop n l) at 1.
  rewrite filter_app, length_app.
  assert (filter P (take n l) = take n l) as ->.
  { clear Hn. induction (take n l) as [|x k IH]; [done|].
    apply Forall_cons in Hall as [Hx Hk].
    rewrite filter_cons_True by done. by rewrite IH. }
  rewrite length_take. lia.
Qed.

Lemma lerp_ge_low (a b g : Q) :
  (a <= b)%Q → (0 <= g)%Q → (a <= a + (b - a) * g)%Q.
Proof.
  intros Hab Hg.
  assert (0 <= (b - a) * g)%Q by (apply Qmult_le_0_compat; lra). lra.
Qed.

Global Instance Qle_refl_inst : Reflexive Qle.
Proof. intros x. apply Qle_refl. Qed.

(** X16: the threshold sits at the 99th percentile: of the [n] values of a
    column that are not missing, at least [floor (0.99 * (n - 1)) + 1] are
    at or below its 0.99 quantile. *)
Theorem threshold_rank (col : list cell) :
  values col ≠ [] →
  ∃ t, quantile col 0.99 = Val t
    ∧ (S (Z.to_nat (Qfloor (0.99 * inject_Z (Z.of_nat (pred (length (values col)))))))
       ≤ length (filter (λ v, (v <= t)%Q) (values col)))%nat.
Proof.
  intros Hne. unfold quantile.
  pose proof (merge_sort_Permutation Qle (values col)) as Hperm.
  pose proof (StronglySorted_merge_sort Qle (values col)) as Hsort.
  assert (Hlen : length (values col) = length (merge_sort Qle (values col)))
    by (by rewrite Hperm).
  assert (Hfl : ∀ t, length (filter (λ v, (v <= t)%Q) (values col))
                     = length (filter (λ v, (v <= t)%Q)
                                 (merge_sort Qle (values col))))
    by (intros t; by rewrite Hperm).
  rewrite Hlen. setoid_rewrite Hfl. clear Hlen Hfl.
  set (xs := merge_sort Qle (values col)) in *.
  destruct xs as [|x xs'] eqn:Exs.
  { apply Permutation_nil_l in Hperm. by rewrite Hperm in Hne. }
  rewrite <- Exs in *. clear Exs x xs'.
  set (n := length xs).
  assert (Hn : (0 < n)%nat).
  { subst n. rewrite Hperm. destruct (values col); [done|simpl; lia]. }
  set (pos := (0.99 * inject_Z (Z.of_nat (pred n)))%Q).
  assert (Hnn : (0 <= inject_Z (Z.of_nat (pred n)))%Q).
  { change 0%Q with (inject_Z 0). rewrite <- Zle_Qle. lia. }
  assert (Hpos0 : (0 <= pos)%Q) by (unfold pos; lra).
  assert (Hpos1 : (pos <= inject_Z (Z.of_nat (pred n)))%Q) by (unfold pos; lra).
  assert (Hf0 : 0 ≤ Qfloor pos).
  { rewrite <- (Qfloor_Z 0). by apply Qfloor_resp_le. }
  assert (Hf1 : Qfloor pos ≤ Z.of_nat (pred n)).
  { rewrite <- (Qfloor_Z (Z.of_nat (pred n))). by apply Qfloor_resp_le. }
  set (i := Z.to_nat (Qfloor pos)).
  set (j := Nat.min (S i) (pred n)).
  destruct (lookup_lt_is_Some_2 xs i) as [a Ha]; [subst i n; lia|].
  destruct (lookup_lt_is_Some_2 xs j) as [b Hb]; [subst j i n; lia|].
  rewrite Ha, Hb. simpl.
  set (g := (pos - inject_Z (Qfloor pos))%Q).
  assert (Hg0 : (0 <= g)%Q) by (pose proof (Qfloor_le pos); unfold g; lra).
  assert (Hab : (a <= b)%Q).
  { eapply (StronglySorted_lookup_le Qle xs i j); [done..|subst j i n; lia]. }
  eexists. split; [done|].
  apply length_filter_take; [subst i n; lia|].
  apply Forall_lookup. intros k v Hk.
  apply lookup_take_Some in Hk as [Hk Hlt].
  assert (v <= a)%Q as Hva.
  { eapply (StronglySorted_lookup_le Qle xs k i); [done..|].
    by apply Nat.lt_succ_r. }
  rewrite Qred_correct. apply (Qle_trans _ a); [done|].
  by apply lerp_ge_low.
Qed.

(** ** The tabs *)

Lemma px_Failed (kind : string) (dff : DataFrame) (cols : list string) :
  ¬ Forall (has_column dff) cols → px kind dff cols = Failed ValueError.
Proof. intros H. unfold px. by rewrite decide_False. Qed.

Lemma has_column_numeric (dff : DataFrame) (c : string) :
  c ≠ "country" → c ≠ "last_updated" → has_column dff c ↔ c ∈ columns dff.
Proof.
  intros H1 H2. unfold has_column. rewrite !elem_of_cons. tauto.
Qed.

(** X17: under Monthly aggregation the Statistical Analysis tab cannot be
    drawn: its scatter chart reads [temperature_celsius] and [humidity],
    and the aggregated frame has the metric as its only numeric column. *)
Theorem stats_tab_fails_monthly (df : DataFrame) (q : QuerySpec) :
  time_agg q = Monthly →
  (metric q ∈ columns df → render_content df TabStats q = Failed ValueError)
  ∧ ¬ is_done (render_content df TabStats q).
Proof.
  intros Hm.
  assert (metric q ∈ columns df →
          render_content df TabStats q = Failed ValueError) as Hfail.
  { intros Hc. unfold render_content. rewrite execute_monthly by done.
    rewrite px_Failed; [done|].
    intros Hall. apply Forall_cons in Hall as [Ht Hall].
    apply Forall_cons in Hall as [Hh _].
    apply has_column_numeric in Ht; [|done..].
    apply has_column_numeric in Hh; [|done..].
    cbn [columns] in Ht, Hh.
    apply list_elem_of_singleton in Ht. apply list_elem_of_singleton in Hh.
    congruence. }
  split; [exact Hfail|].
  destruct (decide (metric q ∈ columns df)) as [Hc|Hc].
  - rewrite (Hfail Hc). simpl. tauto.
  - unfold render_content. rewrite execute_monthly_KeyError by done.
    simpl. tauto.
Qed.

(** * The further properties at the sample data *)

Lemma sample_engineer :
  engineer root_id sample_df
  = Ok (assign "wind_chill" (wind_chill root_id)
          (assign "heat_index" heat_index sample_df)).
Proof. apply engineer_ok; in_list. Qed.

Lemma engineer_passthrough_witness :
  engineer root_id sample_df
  = Ok (assign "wind_chill" (wind_chill root_id)
          (assign "heat_index" heat_index sample_df))
  ∧ country <$> rows (assign "wind_chill" (wind_chill root_id)
                        (assign "heat_index" heat_index sample_df))
    = country <$> rows sample_df.
Proof.
  split; [apply sample_engineer|].
  apply (engineer_passthrough root_id sample_df _ sample_engineer).
Defined.

Lemma registry_metrics_served_witness :
  engineer root_id sample_df
  = Ok (assign "wind_chill" (wind_chill root_id)
          (assign "heat_index" heat_index sample_df))
  ∧ execute (assign "wind_chill" (wind_chill root_id)
               (assign "heat_index" heat_index sample_df))
            (year_2024 "precip_mm" Monthly)
    = Err (KeyError "precip_mm").
Proof.
  split; [apply sample_engineer|].
  apply (registry_metrics_served root_id sample_df _ sample_engineer);
    [|reflexivity..].
  refine (proj1 (bool_decide_eq_false _) _). vm_compute. reflexivity.
Defined.

Lemma full_range_returns_all_witness :
  date_min sample_df = Some (at_date 2024 5 3)
  ∧ date_max sample_df = Some (at_date 2024 5 17)
  ∧ execute sample_df
      {| countries := None; metric := "humidity";
         start_date := at_date 2024 5 3; end_date := at_date 2024 5 17;
         time_agg := Daily |}
    = Ok (dropna sample_df).
Proof.
  split; [reflexivity|]. split; [reflexivity|].
  apply (full_range_returns_all sample_df (at_date 2024 5 3)
           (at_date 2024 5 17) "humidity"); reflexivity.
Defined.

Lemma sample_daily (m : string) :
  execute sample_df (year_2024 m Daily) = Ok sample_df.
Proof. vm_compute. reflexivity. Qed.

Lemma daily_rows_witness :
  execute sample_df (year_2024 "humidity" Daily) = Ok sample_df
  ∧ (brazil_17_may ∈ rows sample_df ↔
     brazil_17_may ∈ rows sample_df
     ∧ True
     ∧ ∃ t, last_updated brazil_17_may = Some t
            ∧ ts_le (at_date 2024 1 1) t ∧ ts_le t (at_date 2024 12 31)).
Proof.
  split; [apply sample_daily|].
  apply (daily_rows sample_df (year_2024 "humidity" Daily) sample_df
           (sample_daily _) eq_refl brazil_17_may).
Defined.

(** Of the two rows of 17 May, both stamped at midnight, none is lost; the
    row of 3 May is outside. *)
Example point_query_sample :
  execute sample_df (on_17_may "humidity" Daily)
  = Ok {| columns := sample_columns; rows := [brazil_17_may; india_17_may] |}.
Proof. vm_compute. reflexivity. Qed.

Lemma point_query_witness :
  execute sample_df (on_17_may "humidity" Daily)
  = Ok {| columns := sample_columns; rows := [brazil_17_may; india_17_may] |}
  ∧ ∀ r, r ∈ [brazil_17_may; india_17_may] →
         last_updated r = Some (at_date 2024 5 17).
Proof.
  split; [apply point_query_sample|].
  apply (point_query sample_df (on_17_may "humidity" Daily) _
           point_query_sample eq_refl eq_refl).
Defined.

Lemma widening_keeps_rows_witness :
  ts_le (at_date 2024 1 1) (at_date 2024 5 17)
  ∧ ts_le (at_date 2024 5 17) (at_date 2024 12 31)
  ∧ filter_rows sample_df (on_17_may "humidity" Daily)
    `sublist_of` filter_rows sample_df (year_2024 "humidity" Daily).
Proof.
  assert (ts_le (at_date 2024 1 1) (at_date 2024 5 17)) as H1
    by (unfold ts_le; simpl; lia).
  assert (ts_le (at_date 2024 5 17) (at_date 2024 12 31)) as H2
    by (unfold ts_le; simpl; lia).
  split; [exact H1|]. split; [exact H2|].
  apply (widening_keeps_rows sample_df (on_17_may "humidity" Daily)
           (year_2024 "humidity" Daily) H1 H2).
  left. reflexivity.
Defined.

Lemma sample_monthly_execute :
  execute sample_df (year_2024 "temperature_celsius" Monthly) = Ok sample_monthly.
Proof. vm_compute. reflexivity. Qed.

Lemma monthly_shape_witness :
  execute sample_df (year_2024 "temperature_celsius" Monthly) = Ok sample_monthly
  ∧ columns sample_monthly = ["temperature_celsius"]
  ∧ (length (rows sample_monthly)
     ≤ length (filter_rows sample_df (year_2024 "temperature_celsius" Monthly)))%nat.
Proof.
  split; [apply sample_monthly_execute|].
  destruct (monthly_shape sample_df (year_2024 "temperature_celsius" Monthly)
              sample_monthly sample_monthly_execute eq_refl)
    as (Hc & _ & Hl & _).
  split; [exact Hc|exact Hl].
Defined.

Lemma sample_reversed_perm : rows sample_df ≡ₚ rows sample_df_reversed.
Proof. unfold sample_df_reversed. cbn [rows]. by rewrite reverse_Permutation. Qed.

Lemma monthly_keys_order_independent_witness :
  rows sample_df ≡ₚ rows sample_df_reversed
  ∧ match execute sample_df (year_2024 "humidity" Monthly),
          execute sample_df_reversed (year_2024 "humidity" Monthly) with
    | Ok o1, Ok o2 => columns o1 = columns o2 ∧ keys o1 = keys o2
    | Err e1, Err e2 => e1 = e2
    | _, _ => False
    end.
Proof.
  split; [apply sample_reversed_perm|].
  apply (monthly_keys_order_independent sample_df sample_df_reversed
           (year_2024 "humidity" Monthly) sample_reversed_perm eq_refl eq_refl).
Defined.

Lemma single_reading_month_witness :
  values (cell_of "humidity"
            <$> group ("Brazil", at_date 2024 5 1)
                  (filter_rows sample_df (year_2024 "humidity" Monthly)))
  = [70%Q]
  ∧ ∃ out, execute sample_df (year_2024 "humidity" Monthly) = Ok out
      ∧ {| country := "Brazil";
           last_updated := Some (at_date 2024 5 1);
           cells := {[ "humidity" := Val 70 ]} |} ∈ rows out.
Proof.
  split; [vm_compute; reflexivity|].
  apply (single_reading_month sample_df (year_2024 "humidity" Monthly)
           brazil_17_may (at_date 2024 5 17) 70).
  - reflexivity.
  - in_list.
  - rewrite sample_filter_rows. in_list.
  - reflexivity.
  - vm_compute. reflexivity.
Defined.

Lemma sample_hottest (r : Row) (v : Q) :
  r ∈ rows sample_df → cell_of "temperature_celsius" r = Val v → (v <= 20)%Q.
Proof.
  intros Hr Hv. simpl in Hr.
  apply elem_of_cons in Hr as [->|Hr]; [injection Hv as <-; done|].
  apply elem_of_cons in Hr as [->|Hr]; [discriminate Hv|].
  apply elem_of_cons in Hr as [->|Hr]; [injection Hv as <-; done|].
  by apply elem_of_nil in Hr.
Qed.

Lemma hottest_row_extreme_witness :
  india_17_may ∈ rows sample_df
  ∧ cell_of "temperature_celsius" india_17_may = Val 20
  ∧ india_17_may ∈ rows (extreme_df sample_df).
Proof.
  assert (india_17_may ∈ rows sample_df) as Hin by in_list.
  split; [exact Hin|]. split; [reflexivity|].
  apply (hottest_row_extreme sample_df "temperature_celsius" india_17_may 20
           (or_introl eq_refl) Hin eq_refl sample_hottest).
Defined.

(** The thresholds of the sample dataset: 10 + 0.99 * (20 - 10), and
    8 + 0.98 * (12 - 8) above the negative reading. *)
Example thresholds_sample :
  temp_thr sample_df = Val (Qred 19.9) ∧ wind_thr sample_df = Val (Qred 11.92)
  ∧ rows (extreme_df sample_df) = [india_3_may; india_17_may].
Proof. repeat split; vm_compute; reflexivity. Qed.

Lemma threshold_rank_witness :
  values [Val 10; NaN; Val 20] ≠ []
  ∧ ∃ t, quantile [Val 10; NaN; Val 20] 0.99 = Val t
      ∧ (1 ≤ length (filter (λ v, (v <= t)%Q) (values [Val 10; NaN; Val 20])))%nat.
Proof.
  assert (values [Val 10; NaN; Val 20] ≠ []) as Hne by done.
  split; [exact Hne|].
  destruct (threshold_rank [Val 10; NaN; Val 20] Hne) as (t & Ht & Hrank).
  exists t. split; [exact Ht|exact Hrank].
Defined.

(** On the sample dataset the Monthly humidity query is answered, and the
    Statistical Analysis tab fails on it; the Help tab is drawn. *)
Example tabs_sample :
  render_content sample_df TabStats (year_2024 "humidity" Monthly)
  = Failed ValueError
  ∧ render_content sample_df TabHelp (year_2024 "humidity" Monthly) = Done Help
  ∧ render_content sample_df TabHelp (year_2024 "dew_point" Monthly)
    = Failed (QueryError (KeyError "dew_point")).
Proof. repeat split; vm_compute; reflexivity. Qed.

Lemma stats_tab_fails_monthly_witness :
  time_agg (year_2024 "humidity" Monthly) = Monthly
  ∧ render_content sample_df TabStats (year_2024 "humidity" Monthly)
    = Failed ValueError.
Proof.
  split; [reflexivity|].
  apply (stats_tab_fails_monthly sample_df (year_2024 "humidity" Monthly) eq_refl).
  in_list.
Defined.

(** The sample dataset has no [precip_mm] column: its Statistical Analysis
    tab fails in Daily mode too, on the selection of the registry columns. *)
Example stats_daily_sample :
  render_content sample_df TabStats (year_2024 "humidity" Daily)
  = Failed (NotInIndex ["precip_mm"; "heat_index"; "wind_chill"]).
Proof. vm_compute. reflexivity. Qed.
